(** * Merged-mesh vertex reduction and resplitting (soulstruct, [mesh_tools.py])

    A shallow embedding of [MergedMesh] and [SplitSubmeshDef] from
    [soulstruct/base/models/flver/mesh_tools.py], and the properties of the
    vertex reducer, the resplitter, the bone-count-bounded subsplit and the
    bone-index remapper. *)

From stdpp Require Import gmap strings list sorting pretty.
From Stdlib Require Import QArith.

Set Default Proof Using "Type".
Local Open Scope Z_scope.

(** ** Python exceptions and the error monad *)

Inductive error := ValueError | TypeError | IndexError | KeyError.

Inductive result (A : Type) : Type :=
  | Ok (a : A)
  | Raise (e : error).
Arguments Ok {A} a.
Arguments Raise {A} e.

Global Instance result_ret : MRet result := @Ok.
Global Instance result_bind : MBind result := λ A B f m,
  match m with Ok a => f a | Raise e => Raise e end.
Global Instance result_fmap : FMap result := λ A B f m,
  match m with Ok a => Ok (f a) | Raise e => Raise e end.

Global Instance error_eq_dec : EqDecision error.
Proof. solve_decision. Defined.

(** [for x in xs: acc = f acc x], stopping at the first exception. *)
Fixpoint foldM {A B} (f : B → A → result B) (acc : B) (xs : list A) : result B :=
  match xs with
  | [] => Ok acc
  | x :: xs' => acc' ← f acc x; foldM f acc' xs'
  end.

(** ** NumPy primitives *)

(** [a.min()] and [a.max()] of an integer array; a zero-size array raises
    [ValueError]. *)
Definition np_min (a : list Z) : result Z :=
  match a with
  | [] => Raise ValueError
  | x :: a' => Ok (foldl Z.min x a')
  end.

Definition np_max (a : list Z) : result Z :=
  match a with
  | [] => Raise ValueError
  | x :: a' => Ok (foldl Z.max x a')
  end.

(** Index normalisation of NumPy: [0 <= i < n] is used as is, [-n <= i < 0]
    counts from the end, anything else raises [IndexError]. *)
Definition np_index (n : nat) (i : Z) : result nat :=
  if bool_decide (0 ≤ i < Z.of_nat n) then Ok (Z.to_nat i)
  else if bool_decide (- Z.of_nat n ≤ i < 0) then Ok (Z.to_nat (Z.of_nat n + i))
  else Raise IndexError.

(** [a[i]] *)
Definition np_get {A} (a : list A) (i : Z) : result A :=
  k ← np_index (length a) i;
  match a !! k with Some x => Ok x | None => Raise IndexError end.

(** [a[idx]] for a 1-D integer index array [idx]. *)
Definition np_take {A} (a : list A) (idx : list Z) : result (list A) :=
  mapM (np_get a) idx.

(** [a[idx]] for a 2-D integer index array [idx]: same shape as [idx]. *)
Definition np_take2 {A} (a : list A) (idx : list (list Z)) : result (list (list A)) :=
  mapM (np_take a) idx.

(** [a[idx] = vals] for 1-D [idx] and [vals] of equal length: assignments
    happen in order, so the last one wins on a repeated index. *)
Definition np_put {A} (a : list A) (idx : list Z) (vals : list A) : result (list A) :=
  foldM (λ acc '(i, v), k ← np_index (length acc) i; Ok (<[k := v]> acc))
        a (zip idx vals).

(** [np.arange(n)] *)
Definition np_arange (n : nat) : list Z := Z.of_nat <$> seq 0 n.

(** Wrap-around of a signed 32-bit integer. *)
Definition wrap32 (z : Z) : Z := (z + 2 ^ 31) `mod` 2 ^ 32 - 2 ^ 31.

(** [np.zeros(n, dtype=np.int64)]: a negative dimension raises
    [ValueError]. *)
Definition np_zeros (n : Z) : result (list Z) :=
  if decide (n < 0) then Raise ValueError else Ok (replicate (Z.to_nat n) 0).

(** ** [MergedMesh.make_bone_indices_local]

    [bone_indices] is the [(n, 4)] array of global bone indices of a
    subsplit's loops, [submesh_bone_indices] the 1-D array of the bones the
    subsplit uses. Both hold [int32] values (dtype ['i']), so [hi - lo],
    [hi - lo + 1] and the differences [b - lo] are computed on 32 bits and
    wrap around. *)
Definition make_bone_indices_local
    (bone_indices : list (list Z)) (submesh_bone_indices : list Z)
    : result (list (list Z)) :=
  bmin ← np_min (concat bone_indices);
  smin ← np_min submesh_bone_indices;
  let lo := Z.min bmin smin in
  bmax ← np_max (concat bone_indices);
  smax ← np_max submesh_bone_indices;
  let hi := Z.max bmax smax in
  lut ← np_zeros (wrap32 (wrap32 (hi - lo) + 1));
  lut ← np_put lut ((λ b, wrap32 (b - lo)) <$> submesh_bone_indices)
               (np_arange (length submesh_bone_indices));
  np_take2 lut ((λ row : list Z, (λ b, wrap32 (b - lo)) <$> row) <$> bone_indices).

(** Position of [v] in the list [used] (first occurrence; 0 when absent). *)
Fixpoint index_in (used : list Z) (v : Z) : Z :=
  match used with
  | [] => 0
  | u :: used' => if decide (u = v) then 0 else
                    if decide (v ∈ used') then 1 + index_in used' v else 0
  end.

(** [l[a:b]] for [0 <= a], [0 <= b] (an empty slice when [b <= a]). *)
Definition slice {A} (a b : nat) (l : list A) : list A := take (b - a) (drop a l).

(** [enumerate(l)] *)
Definition enumerate {A} (l : list A) : list (nat * A) := zip (seq 0 (length l)) l.

(** Python list indexing [l[i]] with a non-negative index. *)
Definition py_get {A} (l : list A) (i : nat) : result A :=
  match l !! i with Some x => Ok x | None => Raise IndexError end.

(** [n] consecutive chunks of [k] elements. *)
Fixpoint chunks {A} (k n : nat) (l : list A) : list (list A) :=
  match n with
  | O => []
  | S n' => take k l :: chunks k n' (drop k l)
  end.

(** [a.reshape((-1, k))] of the flattened data [flat]; the size must be a
    multiple of [k]. *)
Definition np_reshape {A} (k : nat) (flat : list A) : result (list (list A)) :=
  if decide ((length flat `mod` k)%nat = 0%nat)
  then Ok (chunks k (length flat `div` k)%nat flat)
  else Raise ValueError.

(** ** Scalars

    [float32] values are kept abstract: equality on [f32] is identity of the
    stored value (what [tobytes] compares), and the operations the code
    applies to floats are the fields of the class. *)
Class Float32 := {
  f32 : Type;
  f32_eq_dec :: EqDecision f32;
  f32_countable :: Countable f32;
  f32_zero : f32;                        (* 0.0 *)
  f32_one : f32;                         (* 1.0 *)
  f32_isnan : f32 → bool;                (* np.isnan(x) *)
  f32_is_zero : f32 → bool;              (* x == 0.0 *)
  f32_dot : list f32 → list f32 → f32;   (* np.dot(a, b) on 1-D arrays *)
  f32_lt_m09 : f32 → bool;               (* x < -0.9 *)
}.

(** ** Structured arrays

    A row of a structured array. The fields a given array really has are
    listed by its [Dtype]; [K] is the type of UV field keys: [nat] for the
    [uv_{i}] fields of a FLVER vertex buffer, [string] for the global UV
    layer names of a merged mesh. *)
Record Row `{Float32} (K : Type) `{Countable K} := mkRow {
  position : list f32;            (* 3 *)
  bone_weights : list f32;        (* 4 *)
  bone_indices : list Z;          (* 4 *)
  normal : list f32;              (* 3 *)
  normal_w : list Z;              (* 1 *)
  bitangent : list f32;           (* 4 *)
  tangents : gmap nat (list f32); (* tangent_{i}, 4 each *)
  colors : gmap nat (list f32);   (* color_{i}, 4 each *)
  uvs : gmap K (list f32);        (* 2 each *)
}.
Arguments mkRow {_ K _ _}.
Arguments position {_ K _ _}.
Arguments bone_weights {_ K _ _}.
Arguments bone_indices {_ K _ _}.
Arguments normal {_ K _ _}.
Arguments normal_w {_ K _ _}.
Arguments bitangent {_ K _ _}.
Arguments tangents {_ K _ _}.
Arguments colors {_ K _ _}.
Arguments uvs {_ K _ _}.

Record Dtype (K : Type) := mkDtype {
  d_position : bool;
  d_bone_weights : bool;
  d_bone_indices : bool;
  d_normal : bool;
  d_normal_w : bool;
  d_bitangent : bool;
  d_tangents : list nat;
  d_colors : list nat;
  d_uvs : list K;
}.
Arguments mkDtype {K}.
Arguments d_position {K}.
Arguments d_bone_weights {K}.
Arguments d_bone_indices {K}.
Arguments d_normal {K}.
Arguments d_normal_w {K}.
Arguments d_bitangent {K}.
Arguments d_tangents {K}.
Arguments d_colors {K}.
Arguments d_uvs {K}.

Record SArray `{Float32} (K : Type) `{Countable K} := mkSArray {
  sa_dtype : Dtype K;
  sa_rows : list (Row K);
}.
Arguments mkSArray {_ K _ _}.
Arguments sa_dtype {_ K _ _}.
Arguments sa_rows {_ K _ _}.

Global Instance Row_eq_dec `{Float32} `{Countable K} : EqDecision (Row K).
Proof. solve_decision. Defined.

Section subsplit.
Context `{F32 : Float32} `{Countable K}.

Definition set_bone_indices (b : list Z) (r : Row K) : Row K :=
  mkRow (position r) (bone_weights r) b (normal r) (normal_w r)
        (bitangent r) (tangents r) (colors r) (uvs r).

(** [a["bone_indices"]], [a["bone_weights"]]: a missing field raises
    [ValueError]. *)
Definition get_bone_indices (a : SArray K) : result (list (list Z)) :=
  if d_bone_indices (sa_dtype a) then Ok (bone_indices <$> sa_rows a)
  else Raise ValueError.

Definition get_bone_weights (a : SArray K) : result (list (list f32)) :=
  if d_bone_weights (sa_dtype a) then Ok (bone_weights <$> sa_rows a)
  else Raise ValueError.

(** One row of [bone_indices[bone_weights == 0.0] = -1]. *)
Fixpoint mask_unused (ws : list f32) (bs : list Z) : list Z :=
  match bs with
  | [] => []
  | b :: bs' =>
      match ws with
      | [] => b :: bs'
      | w :: ws' => (if f32_is_zero w then -1 else b) :: mask_unused ws' bs'
      end
  end.

(** The bone indices the subsplit works on: those of the loops, with the
    unused slots set to -1 for a bind-pose submesh whose caller did not do
    it. *)
Definition subsplit_bone_index_array
    (submesh_loops : SArray K) (is_bind_pose unused_bone_indices_are_minus_one : bool)
    : result (list (list Z)) :=
  bone_indices ← get_bone_indices submesh_loops;
  if is_bind_pose && negb unused_bone_indices_are_minus_one then
    bone_weights ← get_bone_weights submesh_loops;
    Ok (zip_with mask_unused bone_weights bone_indices)
  else Ok bone_indices.

(** [np.array(sorted(unique_indices - {-1}))] *)
Definition sorted_bones (unique_indices : gset Z) : list Z :=
  merge_sort Z.le (elements (unique_indices ∖ {[-1]})).

Record SubsplitState := mkSubsplitState {
  subsplit_face_indices : list nat;
  subsplit_bone_indices : list (list Z);
  unique_indices : gset Z;
}.

(** One iteration of the loop over [enumerate(all_face_bone_indices)]. *)
Definition subsplit_step (max_bones_per_submesh : Z) (st : SubsplitState)
    (face : nat * list Z) : SubsplitState :=
  let '(face_index, face_bone_indices) := face in
  let max_bones := max_bones_per_submesh + 1 in
  let new_indices := unique_indices st ∪ list_to_set face_bone_indices in
  if bool_decide (max_bones < Z.of_nat (size new_indices)) then
    mkSubsplitState (subsplit_face_indices st ++ [face_index])
                    (subsplit_bone_indices st ++ [sorted_bones (unique_indices st)])
                    ({[-1]} ∪ list_to_set face_bone_indices)
  else
    mkSubsplitState (subsplit_face_indices st) (subsplit_bone_indices st) new_indices.

Definition subsplit_init : SubsplitState := mkSubsplitState [0%nat] [] {[-1]}.

Definition subsplit_scan (max_bones_per_submesh : Z)
    (all_face_bone_indices : list (list Z)) : SubsplitState :=
  foldl (subsplit_step max_bones_per_submesh) subsplit_init
        (enumerate all_face_bone_indices).

(** [MergedMesh.subsplit_faces] *)
Definition subsplit_faces (material_index : nat) (submesh_loops : SArray K)
    (is_bind_pose : bool) (max_bones_per_submesh : Z)
    (unused_bone_indices_are_minus_one : bool)
    : result (list (nat * SArray K * list Z)) :=
  bone_indices ← subsplit_bone_index_array submesh_loops is_bind_pose
                   unused_bone_indices_are_minus_one;
  all_face_bone_indices ← np_reshape 12 (concat bone_indices);
  let st := subsplit_scan max_bones_per_submesh all_face_bone_indices in
  let face_indices :=
    subsplit_face_indices st ++ [(length (sa_rows submesh_loops) `div` 3)%nat] in
  let bones := subsplit_bone_indices st ++ [sorted_bones (unique_indices st)] in
  mapM (λ '(i, face_start),
          face_end ← py_get face_indices (i + 1);
          let loops_start := (face_start * 3)%nat in
          let loops_end := (face_end * 3)%nat in
          let subsplit_loops := slice loops_start loops_end (sa_rows submesh_loops) in
          let subsplit_global_bone_indices := slice loops_start loops_end bone_indices in
          bones_i ← py_get bones i;
          local ← make_bone_indices_local subsplit_global_bone_indices bones_i;
          Ok (material_index,
              mkSArray (sa_dtype submesh_loops)
                       (zip_with set_bone_indices local subsplit_loops),
              bones_i))
       (enumerate (removelast face_indices)).
End subsplit.

(** ** FLVER data

    Modelled from the spec: [FLVER], [Submesh], [FaceSet], [VertexArray],
    [VertexArrayLayout] and [Material] are declared in modules that are not
    among the sources. A face set is represented by its triangulation (what
    [triangulate] returns and [from_triangles] receives), a layout by its UV
    count and the fields of its decompressed dtype, a material by an
    identifier. *)
Definition Material := Z.

Record FaceSet := mkFaceSet {
  triangles : list (nat * nat * nat);
  use_backface_culling : bool;
}.

Record VertexArrayLayout := mkLayout {
  get_uv_count : nat;
  get_dtype : Dtype nat;
}.

Record VertexArray `{Float32} := mkVertexArray {
  array : SArray nat;
  layout : VertexArrayLayout;
}.

Record Submesh `{Float32} := mkSubmesh {
  face_sets : list FaceSet;
  material : Material;
  vertex_arrays : list VertexArray;
  submesh_bone_indices : option (list Z);
  is_bind_pose : option bool;
  submesh_kwargs : gmap string Z;
}.

Record FLVER `{Float32} := mkFLVER { submeshes : list Submesh }.
Arguments mkVertexArray {_}.
Arguments mkSubmesh {_}.
Arguments mkFLVER {_}.

(** A row of [all_vertices] / [vertex_data]: dtype
    [position (f, 3), bone_weights (f, 4), bone_indices (i, 4)]. *)
Record Vertex `{Float32} := mkVertex {
  v_position : list f32;
  v_bone_weights : list f32;
  v_bone_indices : list Z;
}.

Arguments mkVertex {_}.

(** The [faces] array: [(n, 4)] rows [loop0, loop1, loop2, material_index].
    The number of columns is kept because [np.column_stack] of an empty face
    list gives shape [(0, 2)]. *)
Record FaceArray := mkFaceArray {
  fa_ncols : nat;
  fa_rows : list (nat * nat * nat * nat);
}.

Record LoopData `{Float32} := mkLoopData {
  ld_loop_normals : list (list f32);
  ld_loop_normals_w : list (list Z);
  ld_loop_tangents : list (list (list f32));
  ld_loop_bitangents : list (list f32);
  ld_loop_vertex_colors : list (list (list f32));
  ld_loop_uvs : gmap string (list (list f32));
}.

Record MergedMesh `{Float32} := mkMergedMesh {
  vertex_data : list Vertex;
  loop_vertex_indices : list nat;
  loop_normals : list (list f32);
  loop_normals_w : list (list Z);
  loop_tangents : list (list (list f32));
  loop_bitangents : list (list f32);
  loop_vertex_colors : list (list (list f32));
  loop_uvs : gmap string (list (list f32));
  faces : FaceArray;
  flver : option FLVER;
  material_uv_layers : list (list string);
}.

Arguments mkLoopData {_}.
Arguments mkMergedMesh {_}.

Section merge.
Context `{F32 : Float32}.

Global Instance Vertex_eq_dec : EqDecision Vertex.
Proof. solve_decision. Defined.

(** [vertex.tobytes()]: the stored (position, bone_weights, bone_indices)
    data, compared exactly. *)
Definition tobytes (v : Vertex) : list f32 * list f32 * list Z :=
  (v_position v, v_bone_weights v, v_bone_indices v).

(** *** [MergedMesh.build_stacked_loops] *)

Definition zeros (n k : nat) : list (list f32) := replicate n (replicate k f32_zero).

(** [d.setdefault(key, np.zeros((total, k)))[i:j] = block] *)
Definition setdefault_assign `{Countable Key} (d : gmap Key (list (list f32)))
    (key : Key) (total k i : nat) (block : list (list f32))
    : gmap Key (list (list f32)) :=
  <[key := list_inserts i block (default (zeros total k) (d !! key))]> d.

(** The global name of UV [uv_i] of a submesh with tag [material_index]:
    [material_uv_layer_names[material_index][uv_i]], and ['UVMap{uv_i}']
    when no names are given or on [IndexError]. *)
Definition uv_layer_name_of (material_uv_layer_names : option (list (list string)))
    (material_index uv_i : nat) : string :=
  let default_name := "UVMap" +:+ pretty uv_i in
  match material_uv_layer_names with
  | None | Some [] => default_name
  | Some names =>
      match names !! material_index with
      | None => default_name
      | Some l => default default_name (l !! uv_i)
      end
  end.

Record StackState := mkStackState {
  st_offset : nat;
  st_all_vertices : list Vertex;
  st_loop_normals : list (list f32);
  st_loop_normals_w : list (list Z);
  st_loop_bitangents : list (list f32);
  st_loop_tangents_dict : gmap nat (list (list f32));
  st_loop_vertex_colors_dict : gmap nat (list (list f32));
  st_loop_uvs : gmap string (list (list f32));
}.

(** [submesh.vertex_arrays[0]] *)
Definition first_vertex_array (submesh : Submesh) : result VertexArray :=
  py_get (vertex_arrays submesh) 0.

(** The body of the loop over [zip(submeshes, material_indices)]. The
    arrays created with [np.empty] are filled slice by slice, [[i:j]]
    starting where the previous submesh ended, so they grow by appending;
    the arrays created with [np.zeros] on demand have their full length
    from the start. [int(name[-1])] reads the last digit of a tangent or
    colour field name. *)
Definition stack_submesh (total_vertex_count : nat)
    (material_uv_layer_names : option (list (list string)))
    (st : StackState) (sm : Submesh * nat) : result StackState :=
  let '(submesh, material_index) := sm in
  va ← first_vertex_array submesh;
  let vertices := sa_rows (array va) in
  let field_names := sa_dtype (array va) in
  let i := st_offset st in
  let n := length vertices in
  let positions : list (list f32) :=
    if d_position field_names then position <$> vertices
    else replicate n (replicate 3 f32_zero) in
  let weights : list (list f32) :=
    if d_bone_weights field_names then bone_weights <$> vertices
    else replicate n (replicate 4 f32_zero) in
  indices ←
    (if d_bone_indices field_names then
       match submesh_bone_indices submesh with
       | Some table => np_take2 table (bone_indices <$> vertices)
       | None => Ok (bone_indices <$> vertices)
       end
     else Ok (replicate n (replicate 4 0)) : result (list (list Z)));
  let normals : list (list f32) :=
    if d_normal field_names then normal <$> vertices
    else replicate n [f32_zero; f32_one; f32_zero] in
  let normals_w : list (list Z) :=
    if d_normal_w field_names then normal_w <$> vertices
    else replicate n [127] in
  let bitangents : list (list f32) :=
    if d_bitangent field_names then bitangent <$> vertices
    else replicate n [f32_zero; f32_zero; f32_one; f32_one] in
  tangents_dict ←
    foldM (λ (d : gmap nat (list (list f32))) (name : nat),
             let t_i := (name `mod` 10)%nat in
             if decide (t_i ∈ d_tangents field_names)
             then Ok (setdefault_assign d t_i total_vertex_count 4 i
                        ((λ r, tangents r !!! t_i) <$> vertices))
             else Raise ValueError)
          (st_loop_tangents_dict st) (d_tangents field_names);
  colors_dict ←
    foldM (λ (d : gmap nat (list (list f32))) (name : nat),
             let c_i := (name `mod` 10)%nat in
             if decide (c_i ∈ d_colors field_names)
             then Ok (setdefault_assign d c_i total_vertex_count 4 i
                        ((λ r, colors r !!! c_i) <$> vertices))
             else Raise ValueError)
          (st_loop_vertex_colors_dict st) (d_colors field_names);
  let loop_uvs : gmap string (list (list f32)) :=
    foldl (λ (d : gmap string (list (list f32))) (uv_i : nat),
             setdefault_assign d
               (uv_layer_name_of material_uv_layer_names material_index uv_i)
               total_vertex_count 2 i ((λ r, uvs r !!! uv_i) <$> vertices))
          (st_loop_uvs st) (d_uvs field_names) in
  Ok (mkStackState (i + n)
        (st_all_vertices st
           ++ zip_with (λ pw b, mkVertex pw.1 pw.2 b) (zip positions weights) indices)
        (st_loop_normals st ++ normals)
        (st_loop_normals_w st ++ normals_w)
        (st_loop_bitangents st ++ bitangents)
        tangents_dict colors_dict loop_uvs).

(** [[d[i] for i in sorted(d)]] *)
Definition sorted_values (d : gmap nat (list (list f32))) : list (list (list f32)) :=
  (λ i, d !!! i) <$> merge_sort Nat.le (elements (dom d)).

Definition build_stacked_loops (submeshes : list Submesh) (material_indices : list nat)
    (material_uv_layer_names : option (list (list string)))
    : result (list Vertex * LoopData) :=
  lens ← mapM (λ mesh, va ← first_vertex_array mesh; Ok (length (sa_rows (array va))))
              submeshes;
  let total_vertex_count := foldr Nat.add 0%nat lens in
  st ← foldM (stack_submesh total_vertex_count material_uv_layer_names)
             (mkStackState 0 [] [] [] [] ∅ ∅ ∅)
             (zip submeshes material_indices);
  Ok (st_all_vertices st,
      mkLoopData (st_loop_normals st) (st_loop_normals_w st)
                 (sorted_values (st_loop_tangents_dict st))
                 (st_loop_bitangents st)
                 (sorted_values (st_loop_vertex_colors_dict st))
                 (st_loop_uvs st)).

(** *** [MergedMesh.merge_vertices] *)

Record MergeState := mkMergeState {
  vertex_indices_normals : gmap (list f32 * list f32 * list Z) (nat * list f32);
  inv_vertex_indices : gmap (list f32 * list f32 * list Z) nat;
  reduced_vertex_indices : list nat;
  vertex_count : nat;
  m_loop_vertex_indices : list nat;
  assigned_loop_indices : gset nat;
}.

(** The body of [for loop_index in triangle]. *)
Definition merge_loop (all_vertices : list Vertex) (loop_normals : list (list f32))
    (st : MergeState) (loop_index : nat) : result MergeState :=
  if decide (loop_index ∈ assigned_loop_indices st) then Ok st else
  let assigned := {[loop_index]} ∪ assigned_loop_indices st in
  triangle_vert ← py_get all_vertices loop_index;
  vert_normal ← py_get loop_normals loop_index;
  let vertex_hash := tobytes triangle_vert in
  match vertex_indices_normals st !! vertex_hash with
  | None =>
      (* First time this vertex has been encountered. *)
      let vertex_index := vertex_count st in
      Ok (mkMergeState
            (<[vertex_hash := (vertex_index, vert_normal)]> (vertex_indices_normals st))
            (inv_vertex_indices st)
            (reduced_vertex_indices st ++ [loop_index])
            (vertex_count st + 1)
            (<[loop_index := vertex_index]> (m_loop_vertex_indices st))
            assigned)
  | Some (existing_vertex_index, existing_normal) =>
      if f32_lt_m09 (f32_dot vert_normal existing_normal) then
        match inv_vertex_indices st !! vertex_hash with
        | None =>
            (* First time this inverted vertex has been encountered. *)
            let vertex_index := vertex_count st in
            Ok (mkMergeState
                  (vertex_indices_normals st)
                  (<[vertex_hash := vertex_index]> (inv_vertex_indices st))
                  (reduced_vertex_indices st ++ [loop_index])
                  (vertex_count st + 1)
                  (<[loop_index := vertex_index]> (m_loop_vertex_indices st))
                  assigned)
        | Some existing_inv_vertex_index =>
            Ok (mkMergeState
                  (vertex_indices_normals st) (inv_vertex_indices st)
                  (reduced_vertex_indices st) (vertex_count st)
                  (<[loop_index := existing_inv_vertex_index]> (m_loop_vertex_indices st))
                  assigned)
        end
      else
        Ok (mkMergeState
              (vertex_indices_normals st) (inv_vertex_indices st)
              (reduced_vertex_indices st) (vertex_count st)
              (<[loop_index := existing_vertex_index]> (m_loop_vertex_indices st))
              assigned)
  end.

(** The loop indices visited by [for triangle in triangles: for loop_index
    in triangle]. *)
Definition triangle_loops (t : nat * nat * nat) : list nat :=
  let '(a, b, c) := t in [a; b; c].

Definition offset_triangle (loop_offset : nat) (t : nat * nat * nat) : nat * nat * nat :=
  let '(a, b, c) := t in ((a + loop_offset)%nat, (b + loop_offset)%nat, (c + loop_offset)%nat).

(** [np.column_stack([submesh_faces_list, np.full(len(...), material_index)])] *)
Definition column_stack_faces (submesh_faces_list : list (nat * nat * nat))
    (material_index : nat) : FaceArray :=
  match submesh_faces_list with
  | [] => mkFaceArray 2 []
  | _ => mkFaceArray 4 ((λ t, (t, material_index)) <$> submesh_faces_list)
  end.

(** [np.row_stack(blocks)] *)
Definition row_stack_faces (blocks : list FaceArray) : result FaceArray :=
  match blocks with
  | [] => Raise ValueError
  | b :: bs =>
      if forallb (λ b', bool_decide (fa_ncols b' = fa_ncols b)) bs
      then Ok (mkFaceArray (fa_ncols b) (concat (fa_rows <$> blocks)))
      else Raise ValueError
  end.

(** The body of the loop over the submeshes; the state also carries
    [loop_offset] and [all_submesh_faces]. *)
Definition merge_submesh (all_vertices : list Vertex) (loop_normals : list (list f32))
    (acc : MergeState * nat * list FaceArray) (sm : Submesh * nat)
    : result (MergeState * nat * list FaceArray) :=
  let '(st, loop_offset, all_submesh_faces) := acc in
  let '(submesh, material_index) := sm in
  face_set ← py_get (face_sets submesh) 0;
  let triangles := offset_triangle loop_offset <$> triangles face_set in
  st ← foldM (λ st triangle,
                foldM (merge_loop all_vertices loop_normals) st (triangle_loops triangle))
             st triangles;
  va ← first_vertex_array submesh;
  Ok (st, (loop_offset + length (sa_rows (array va)))%nat,
      all_submesh_faces ++ [column_stack_faces triangles material_index]).

(** [uninit k] is what the memory obtained by
    [np.empty(len(loop_normals), dtype=np.uint32)] holds at position [k]. *)
Definition merge_vertices (uninit : nat → nat) (submeshes : list Submesh)
    (all_vertices : list Vertex) (submesh_material_indices : list nat)
    (loop_normals : list (list f32))
    : result (list Vertex * list nat * FaceArray) :=
  let init :=
    mkMergeState ∅ ∅ [] 0 (uninit <$> seq 0 (length loop_normals)) ∅ in
  '(st, _, all_submesh_faces) ←
    foldM (merge_submesh all_vertices loop_normals) (init, 0%nat, [])
          (zip submeshes submesh_material_indices);
  vertex_data ← mapM (py_get all_vertices) (reduced_vertex_indices st);
  faces ← row_stack_faces all_submesh_faces;
  Ok (vertex_data, m_loop_vertex_indices st, faces).

(** *** [MergedMesh.from_flver] *)

Definition has_nan_position (submesh : Submesh) : bool :=
  existsb (λ va, d_position (sa_dtype (array va))
                 && existsb (λ r, existsb f32_isnan (position r)) (sa_rows (array va)))
          (vertex_arrays submesh).

Definition from_flver (uninit : nat → nat) (flver : FLVER)
    (submesh_material_indices : option (list nat))
    (material_uv_layer_names : option (list (list string)))
    : result MergedMesh :=
  match submeshes flver with
  | [] => Raise ValueError
  | _ =>
      let submesh_material_indices :=
        match submesh_material_indices with
        | None | Some [] => seq 0 (length (submeshes flver))
        | Some l => l
        end in
      valid ← foldM (λ acc '(i, submesh),
                       if has_nan_position submesh then Ok acc
                       else m ← py_get submesh_material_indices i;
                            Ok (acc ++ [(submesh, m)]))
                    [] (enumerate (submeshes flver));
      let valid_submeshes := fst <$> valid in
      let valid_submesh_material_indices := snd <$> valid in
      '(all_vertices, loop_data) ←
        build_stacked_loops valid_submeshes valid_submesh_material_indices
                            material_uv_layer_names;
      '(vertex_data, loop_vertex_indices, faces) ←
        merge_vertices uninit valid_submeshes all_vertices
                       valid_submesh_material_indices (ld_loop_normals loop_data);
      Ok (mkMergedMesh vertex_data loop_vertex_indices
            (ld_loop_normals loop_data) (ld_loop_normals_w loop_data)
            (ld_loop_tangents loop_data) (ld_loop_bitangents loop_data)
            (ld_loop_vertex_colors loop_data) (ld_loop_uvs loop_data)
            faces (Some flver) [])
  end.
End merge.

(** ** [np.unique] and [np.argsort] *)

(** [i] comes before [j] when [a[i] <= a[j]]. *)
Definition key_le (a : list nat) (i j : nat) : Prop := (a !!! i ≤ a !!! j)%nat.

Global Instance key_le_dec a i j : Decision (key_le a i j).
Proof. unfold key_le. apply _. Defined.

(** [np.argsort(a)] *)
Definition np_argsort (a : list nat) : list nat :=
  merge_sort (key_le a) (seq 0 (length a)).

Section unique.
Context {A : Type} `{EqDecision A}.
Context (le : A → A → Prop) `{!∀ x y, Decision (le x y)}.

(** The distinct elements of [l] in the order of their first occurrence. *)
Fixpoint first_occurrences (l : list A) : list A :=
  match l with
  | [] => []
  | x :: l' => x :: filter (λ y, y ≠ x) (first_occurrences l')
  end.

(** Index of the first occurrence of [x] in [l] ([length l] when absent). *)
Fixpoint index_of (x : A) (l : list A) : nat :=
  match l with
  | [] => 0%nat
  | y :: l' => if decide (y = x) then 0%nat else S (index_of x l')
  end.

(** [np.unique(ar, return_index=True, return_inverse=True, axis=0)]: the
    sorted unique rows, the index of the first occurrence of each of them
    in [ar], and for each row of [ar] its index among the unique rows.
    [le] is the order NumPy sorts rows by. *)
Definition np_unique (ar : list A) : list A * list nat * list nat :=
  let u := merge_sort le (first_occurrences ar) in
  (u, (λ x, index_of x ar) <$> u, (λ x, index_of x u) <$> ar).

(** The final vertex reduction of [split_mesh]: [np.unique], then the
    unsorting of its output. Returns [submesh_vertices] and
    [face_vertex_indices]. *)
Definition reduce_loops (submesh_loops : list A) : result (list A * list nat) :=
  let '(submesh_vertices, first_indices, face_vertex_indices) :=
    np_unique submesh_loops in
  let sorting_indices := np_argsort first_indices in
  submesh_vertices ← mapM (py_get submesh_vertices) sorting_indices;
  let inverse_sorting_indices := np_argsort sorting_indices in
  face_vertex_indices ← mapM (py_get inverse_sorting_indices) face_vertex_indices;
  Ok (submesh_vertices, face_vertex_indices).
End unique.

(** ** [SplitSubmeshDef] *)

Record Kwargs := mkKwargs {
  kw_is_bind_pose : option bool;
  kw_use_backface_culling : option bool;
  kw_face_set_count : option Z;
  kw_other : gmap string Z;
}.

Record SplitSubmeshDef := mkSplitSubmeshDef {
  def_material : Material;
  def_layout : VertexArrayLayout;
  def_kwargs : Kwargs;
  def_uv_layer_names : option (list string);
}.

(** [[f"UVMap{i}" for i in range(uv_count)]] *)
Definition default_uv_layer_names (uv_count : nat) : list string :=
  (λ i, "UVMap" +:+ pretty i) <$> seq 0 uv_count.

(** [SplitSubmeshDef.get_validated_uv_layer_names]; [len(None)] raises
    [TypeError]. *)
Definition get_validated_uv_layer_names (self : SplitSubmeshDef)
    (global_uv_layer_names : gset string) (index : nat) : result (list string) :=
  let uv_count := get_uv_count (def_layout self) in
  let uv_layer_names :=
    match def_uv_layer_names self with
    | None | Some [] => default_uv_layer_names uv_count
    | Some names => names
    end in
  len ← match def_uv_layer_names self with
        | None => Raise TypeError
        | Some names => Ok (length names)
        end;
  if decide (len ≠ uv_count) then Raise ValueError
  else if existsb (λ layer_name, bool_decide (layer_name ∉ global_uv_layer_names))
                  uv_layer_names
  then Raise ValueError
  else Ok uv_layer_names.

(** ** [MergedMesh.split_mesh] *)

Section split.
Context `{F32 : Float32}.

(** The dtype of a material with its [uv_{i}] fields renamed to
    [uv_layer_names[i]]; [np.dtype] rejects a repeated field name. *)
Definition global_uv_dtype (true_dtype : Dtype nat) (uv_layer_names : list string)
    : result (Dtype string) :=
  names ← mapM (py_get uv_layer_names) (d_uvs true_dtype);
  if decide (NoDup names) then
    Ok (mkDtype (d_position true_dtype) (d_bone_weights true_dtype)
                (d_bone_indices true_dtype) (d_normal true_dtype)
                (d_normal_w true_dtype) (d_bitangent true_dtype)
                (d_tangents true_dtype) (d_colors true_dtype) names)
  else Raise ValueError.

(** The dtype with every field of every material. *)
Definition combine_dtypes (dtypes : list (Dtype string)) : Dtype string :=
  mkDtype (existsb d_position dtypes) (existsb d_bone_weights dtypes)
          (existsb d_bone_indices dtypes) (existsb d_normal dtypes)
          (existsb d_normal_w dtypes) (existsb d_bitangent dtypes)
          (first_occurrences (concat (d_tangents <$> dtypes)))
          (first_occurrences (concat (d_colors <$> dtypes)))
          (first_occurrences (concat (d_uvs <$> dtypes))).

(** [combined_array[name] = column]: the column has one row per loop, or a
    single row that is broadcast. *)
Definition assign_column {X} (loop_count : nat) (column : list X) : result (list X) :=
  if decide (length column = loop_count) then Ok column
  else match column with
       | [x] => Ok (replicate loop_count x)
       | _ => Raise ValueError
       end.

(** The columns [loop_tangents[t_i]] (or [loop_vertex_colors[c_i]]) of the
    fields [names], keyed by [t_i = int(name[-1])]. *)
Definition indexed_columns (loop_count : nat) (arrays : list (list (list f32)))
    (names : list nat) : result (gmap nat (list (list f32))) :=
  foldM (λ (d : gmap nat (list (list f32))) (name : nat),
           let t_i := (name `mod` 10)%nat in
           column ← py_get arrays t_i;
           if decide (t_i ∈ names) then
             column ← assign_column loop_count column;
             Ok (<[t_i := column]> d)
           else Raise ValueError)
        ∅ names.

(** [MergedMesh.get_combined_loop_data]: one row per loop. A field that
    [combined_dtype] lacks is left empty in the rows. *)
Definition get_combined_loop_data (self : MergedMesh) (combined_dtype : Dtype string)
    : result (SArray string) :=
  let loop_count := length (loop_vertex_indices self) in
  let absent {X} : result (list (list X)) := Ok (replicate loop_count []) in
  positions ←
    (if d_position combined_dtype
     then mapM (py_get (v_position <$> vertex_data self)) (loop_vertex_indices self)
     else absent);
  weights ←
    (if d_bone_weights combined_dtype
     then mapM (py_get (v_bone_weights <$> vertex_data self)) (loop_vertex_indices self)
     else absent);
  indices ←
    (if d_bone_indices combined_dtype
     then mapM (py_get (v_bone_indices <$> vertex_data self)) (loop_vertex_indices self)
     else absent);
  normals ←
    (if d_normal combined_dtype then assign_column loop_count (loop_normals self)
     else absent);
  normals_w ←
    (if d_normal_w combined_dtype then assign_column loop_count (loop_normals_w self)
     else absent);
  bitangents ←
    (if d_bitangent combined_dtype then assign_column loop_count (loop_bitangents self)
     else absent);
  tangent_columns ← indexed_columns loop_count (loop_tangents self)
                      (d_tangents combined_dtype);
  uv_columns ←
    foldM (λ (d : gmap string (list (list f32))) '(uv_layer_name, column),
             if decide (uv_layer_name ∈ d_uvs combined_dtype) then
               column ← assign_column loop_count column;
               Ok (<[uv_layer_name := column]> d)
             else Raise ValueError)
          ∅ (map_to_list (loop_uvs self));
  color_columns ← indexed_columns loop_count (loop_vertex_colors self)
                    (d_colors combined_dtype);
  Ok (mkSArray combined_dtype
        ((λ l, mkRow (positions !!! l) (weights !!! l) (indices !!! l)
                     (normals !!! l) (normals_w !!! l) (bitangents !!! l)
                     ((λ column : list (list f32), column !!! l) <$> tangent_columns)
                     ((λ column : list (list f32), column !!! l) <$> color_columns)
                     ((λ column : list (list f32), column !!! l) <$> uv_columns))
           <$> seq 0 loop_count)).

(** One row of [merged_loops[list(dtype.names)]]. *)
Definition select_fields `{Countable K} (dtype : Dtype K) (r : Row K) : Row K :=
  mkRow (if d_position dtype then position r else [])
        (if d_bone_weights dtype then bone_weights r else [])
        (if d_bone_indices dtype then bone_indices r else [])
        (if d_normal dtype then normal r else [])
        (if d_normal_w dtype then normal_w r else [])
        (if d_bitangent dtype then bitangent r else [])
        (filter (λ kv, kv.1 ∈ d_tangents dtype) (tangents r))
        (filter (λ kv, kv.1 ∈ d_colors dtype) (colors r))
        (filter (λ kv, kv.1 ∈ d_uvs dtype) (uvs r)).

(** [self.faces[self.faces[:, 3] == material_index][:, :3].ravel()] *)
Definition material_loop_indices (faces : FaceArray) (material_index : nat)
    : result (list nat) :=
  if decide (fa_ncols faces ≤ 3)%nat then Raise IndexError
  else Ok (concat ((λ f, triangle_loops f.1)
                     <$> filter (λ f, f.2 = material_index) (fa_rows faces))).

(** The body of the loop over [enumerate(global_uv_material_dtypes)]. *)
Definition gather_material (self : MergedMesh) (merged_loops : SArray string)
    (submesh_kwargs : list Kwargs) (use_submesh_bone_indices : bool)
    (max_bones_per_submesh : Z) (unused_bone_indices_are_minus_one : bool)
    (split_submesh_info : list (nat * SArray string * option (list Z)))
    (m : nat * Dtype string)
    : result (list (nat * SArray string * option (list Z))) :=
  let '(material_index, global_uv_material_dtype) := m in
  submesh_loop_indices ← material_loop_indices (faces self) material_index;
  match submesh_loop_indices with
  | [] => Ok split_submesh_info
  | _ =>
      let dtype_view := select_fields global_uv_material_dtype <$> sa_rows merged_loops in
      rows ← mapM (py_get dtype_view) submesh_loop_indices;
      let submesh_loops := mkSArray global_uv_material_dtype rows in
      if use_submesh_bone_indices then
        kwargs ← py_get submesh_kwargs material_index;
        is_bind_pose ← match kw_is_bind_pose kwargs with
                       | Some b => Ok b
                       | None => Raise KeyError
                       end;
        subsplits ← subsplit_faces material_index submesh_loops is_bind_pose
                      max_bones_per_submesh unused_bone_indices_are_minus_one;
        Ok (split_submesh_info
              ++ ((λ s, (s.1.1, s.1.2, Some s.2)) <$> subsplits))
      else Ok (split_submesh_info ++ [(material_index, submesh_loops, None)])
  end.

(** [bone_indices[bone_indices == -1] = 0] on one row. *)
Definition zero_unused (r : Row string) : Row string :=
  set_bone_indices ((λ b, if decide (b = -1) then 0 else b) <$> bone_indices r) r.

(** [submesh_vertices.astype(true_dtype)]: the fields are matched by
    position, so [uv_{i}] receives the column named by the [i]-th UV field
    of the global dtype. *)
Definition astype_true (global_dtype : Dtype string) (true_dtype : Dtype nat)
    (r : Row string) : Row nat :=
  mkRow (position r) (bone_weights r) (bone_indices r) (normal r) (normal_w r)
        (bitangent r) (tangents r) (colors r)
        (list_to_map (zip (d_uvs true_dtype)
                          ((λ name, uvs r !!! name) <$> d_uvs global_dtype))).

(** [FaceSet.from_triangles]: the flat index array, three per triangle. *)
Fixpoint from_triangles (face_vertex_indices : list nat) : list (nat * nat * nat) :=
  match face_vertex_indices with
  | a :: b :: c :: rest => (a, b, c) :: from_triangles rest
  | _ => []
  end.

(** The body of the loop over [split_submesh_info]. The bounding box that
    [refresh_bounding_box] recomputes is not part of the model. *)
Definition assemble_submesh (le : Row string → Row string → Prop)
    `{!∀ x y, Decision (le x y)}
    (defs : list SplitSubmeshDef) (global_uv_material_dtypes : list (Dtype string))
    (unused_bone_indices_are_minus_one : bool)
    (info : nat * SArray string * option (list Z)) : result Submesh :=
  let '(material_index, submesh_loops, submesh_bone_indices) := info in
  def ← py_get defs material_index;
  global_dtype ← py_get global_uv_material_dtypes material_index;
  let kwargs := def_kwargs def in
  '(submesh_vertices, face_vertex_indices) ← reduce_loops le (sa_rows submesh_loops);
  submesh_vertices ←
    (if unused_bone_indices_are_minus_one then
       if d_bone_indices (sa_dtype submesh_loops)
       then Ok (zero_unused <$> submesh_vertices)
       else Raise ValueError
     else Ok submesh_vertices);
  let true_dtype := get_dtype (def_layout def) in
  let vertex_array :=
    mkVertexArray (mkSArray true_dtype (astype_true global_dtype true_dtype <$> submesh_vertices))
                  (def_layout def) in
  let face_set_count := default 1 (kw_face_set_count kwargs) in
  use_backface_culling ← match kw_use_backface_culling kwargs with
                         | Some b => Ok b
                         | None => Raise KeyError
                         end;
  let face_set := mkFaceSet (from_triangles face_vertex_indices) use_backface_culling in
  Ok (mkSubmesh (face_set :: replicate (Z.to_nat (face_set_count - 1)) face_set)
                (def_material def) [vertex_array] submesh_bone_indices
                (kw_is_bind_pose kwargs) (kw_other kwargs)).

Definition split_mesh (le : Row string → Row string → Prop)
    `{!∀ x y, Decision (le x y)}
    (self : MergedMesh) (split_submesh_defs : list SplitSubmeshDef)
    (use_submesh_bone_indices : bool) (max_bones_per_submesh : Z)
    (unused_bone_indices_are_minus_one : bool) : result (list Submesh) :=
  if use_submesh_bone_indices && bool_decide (max_bones_per_submesh < 3)
  then Raise ValueError else
  let submesh_layouts := def_layout <$> split_submesh_defs in
  let submesh_kwargs := def_kwargs <$> split_submesh_defs in
  submesh_uv_layer_names ←
    mapM (λ '(i, submesh_def),
            get_validated_uv_layer_names submesh_def (dom (loop_uvs self)) i)
         (enumerate split_submesh_defs);
  global_uv_material_dtypes ←
    mapM (λ '(layout, uv_layer_names), global_uv_dtype (get_dtype layout) uv_layer_names)
         (zip submesh_layouts submesh_uv_layer_names);
  let combined_dtype := combine_dtypes global_uv_material_dtypes in
  merged_loops ← get_combined_loop_data self combined_dtype;
  split_submesh_info ←
    foldM (gather_material self merged_loops submesh_kwargs use_submesh_bone_indices
             max_bones_per_submesh unused_bone_indices_are_minus_one)
          [] (enumerate global_uv_material_dtypes);
  mapM (assemble_submesh le split_submesh_defs global_uv_material_dtypes
          unused_bone_indices_are_minus_one)
       split_submesh_info.
End split.

(** ** An instance of the scalars: exact rational arithmetic

    Used to run the model on concrete meshes. The decimal literals of the
    examples are exact rationals, the dot product is computed without
    rounding, and there is no NaN. *)

Global Instance Q_eq_dec : EqDecision Q.
Proof. solve_decision. Defined.

Global Instance Q_countable : Countable Q.
Proof.
  refine (inj_countable' (λ q, (Qnum q, Qden q)) (λ p, Qmake p.1 p.2) _).
  by intros [].
Defined.

Definition Q_dot (a b : list Q) : Q :=
  foldl (λ acc xy, (acc + xy.1 * xy.2)%Q) 0%Q (zip a b).

Definition ExactQ : Float32 := {|
  f32 := Q;
  f32_zero := 0%Q;
  f32_one := 1%Q;
  f32_isnan := λ _, false;
  f32_is_zero := λ x, Qeq_bool x 0;
  f32_dot := Q_dot;
  f32_lt_m09 := λ x, negb (Qle_bool (- (9 # 10)) x);
|}.

(** ** Concrete meshes (over the exact rational scalars) *)

Module Examples.
Local Existing Instance ExactQ.

(** A loop row with four bone slots, the first one weighted. *)
Definition bone_row (b1 b2 b3 b4 : Z) (w1 w2 w3 w4 : Q) : Row string :=
  mkRow [0%Q; 0%Q; 0%Q] [w1; w2; w3; w4] [b1; b2; b3; b4] [0%Q; 1%Q; 0%Q] [127]
        [] ∅ ∅ ∅.

Definition bone_dtype : Dtype string :=
  mkDtype true true true true false false [] [] [].

(** Two faces: the first uses bone 0, the second bones 1 and 2. *)
Definition two_faces : SArray string :=
  mkSArray bone_dtype
    [bone_row 0 0 0 0 1 0 0 0; bone_row 0 0 0 0 1 0 0 0; bone_row 0 0 0 0 1 0 0 0;
     bone_row 1 0 0 0 1 0 0 0; bone_row 2 0 0 0 1 0 0 0; bone_row 1 0 0 0 1 0 0 0].

(** Two faces: the first uses bone 1, the second bones 2, 3, 4 and 5. *)
Definition wide_face : SArray string :=
  mkSArray bone_dtype
    [bone_row 1 0 0 0 1 0 0 0; bone_row 1 0 0 0 1 0 0 0; bone_row 1 0 0 0 1 0 0 0;
     bone_row 2 3 0 0 1 1 0 0; bone_row 4 5 0 0 1 1 0 0; bone_row 2 0 0 0 1 0 0 0].

(** One face whose twelve bone slots all have weight zero. *)
Definition all_unused : SArray string :=
  mkSArray bone_dtype
    [bone_row 0 0 0 0 0 0 0 0; bone_row 0 0 0 0 0 0 0 0; bone_row 0 0 0 0 0 0 0 0].

(** FLVER vertex rows with a position, one weighted bone and a normal. *)
Definition vertex_dtype : Dtype nat :=
  mkDtype true true true true false false [] [] [].

Definition vertex_row (p n : list Q) : Row nat :=
  mkRow p [1%Q; 0%Q; 0%Q; 0%Q] [0; 0; 0; 0] n [] [] ∅ ∅ ∅.

Definition vertex_layout : VertexArrayLayout := mkLayout 0 vertex_dtype.

(** A submesh with one vertex array and one face set. *)
Definition simple_submesh (rows : list (Row nat)) (tris : list (nat * nat * nat))
    : Submesh :=
  mkSubmesh [mkFaceSet tris true] 0
            [mkVertexArray (mkSArray vertex_dtype rows) vertex_layout]
            None (Some false) ∅.

Definition pA : list Q := [0%Q; 0%Q; 0%Q].
Definition pB : list Q := [1%Q; 0%Q; 0%Q].
Definition pC : list Q := [0%Q; 0%Q; 1%Q].
Definition pD : list Q := [1%Q; 1%Q; 1%Q].
Definition up : list Q := [0%Q; 1%Q; 0%Q].

(** The row of [all_vertices] that [vertex_row pA _] gives. *)
Definition vA : Vertex := mkVertex pA [1%Q; 0%Q; 0%Q; 0%Q] [0; 0; 0; 0].

(** Two loops at the same raw key with normals (0,1,0) and (0,0.99,-0.14). *)
Definition close_normals : FLVER :=
  mkFLVER [simple_submesh
             [vertex_row pA up; vertex_row pA [0; 99 # 100; - (14 # 100)]%Q;
              vertex_row pB up]
             [(0, 1, 2)%nat]].

(** Two loops at the same raw key with normals (0,1,0) and (0,-1,0). *)
Definition opposite_normals : FLVER :=
  mkFLVER [simple_submesh
             [vertex_row pA up; vertex_row pA [0; - (1); 0]%Q; vertex_row pB up]
             [(0, 1, 2)%nat]].

(** A third loop at that raw key with normal (0,-0.95,0.31). *)
Definition third_normal : FLVER :=
  mkFLVER [simple_submesh
             [vertex_row pA up; vertex_row pA [0; - (1); 0]%Q;
              vertex_row pA [0; - (95 # 100); 31 # 100]%Q]
             [(0, 1, 2)%nat]].

(** Four vertices, of which the only triangle uses the first three. *)
Definition unreferenced_vertex : FLVER :=
  mkFLVER [simple_submesh
             [vertex_row pA up; vertex_row pB up; vertex_row pC up; vertex_row pD up]
             [(0, 1, 2)%nat]].

(** A split definition that leaves [uv_layer_names] at its default. *)
Definition def_without_names : SplitSubmeshDef :=
  mkSplitSubmeshDef 0 (mkLayout 1 (mkDtype true true true true false false [] [] [0%nat]))
                    (mkKwargs (Some false) (Some true) None ∅) None.

(** Memory that holds 7 wherever [np.empty] did not write, and memory that
    holds 0. *)
Definition sevens : nat → nat := λ _, 7%nat.
Definition zeroed : nat → nat := λ _, 0%nat.
End Examples.

(** ** The invariant of the vertex reducer

    [vd] is the vertex table built so far,
    [all_vertices[reduced_vertex_indices]]. *)
Record merge_inv `{Float32} (uninit : nat → nat) (all_vertices : list Vertex)
    (loop_normals : list (list f32)) (st : MergeState) (vd : list Vertex) : Prop := {
  inv_vd : Forall2 (λ i v, all_vertices !! i = Some v) (reduced_vertex_indices st) vd;
  inv_count : vertex_count st = length vd;
  inv_primary : ∀ key idx n,
    vertex_indices_normals st !! key = Some (idx, n) →
    ∃ v, vd !! idx = Some v ∧ tobytes v = key;
  inv_inverted : ∀ key idx,
    inv_vertex_indices st !! key = Some idx →
    ∃ v, vd !! idx = Some v ∧ tobytes v = key;
  inv_occurrences : ∀ key,
    length (filter (λ v, tobytes v = key) vd)
    = ((if vertex_indices_normals st !! key is Some _ then 1 else 0)
       + (if inv_vertex_indices st !! key is Some _ then 1 else 0))%nat;
  inv_assigned : ∀ l, l ∈ assigned_loop_indices st →
    ∃ idx v, m_loop_vertex_indices st !! l = Some idx
             ∧ vd !! idx = Some v ∧ all_vertices !! l = Some v;
  inv_length : length (m_loop_vertex_indices st) = length loop_normals;
  inv_unassigned : ∀ l, l ∉ assigned_loop_indices st → (l < length loop_normals)%nat →
    m_loop_vertex_indices st !! l = Some (uninit l);
}.

(** * Properties *)

(** ** The error monad and the NumPy primitives *)

Section np_lemmas.
Context {A : Type}.
Implicit Types a : list A.

Lemma bind_Ok {B C} (m : result B) (f : B → result C) c :
  m ≫= f = Ok c → ∃ b, m = Ok b ∧ f b = Ok c.
Proof. destruct m; simpl; [eauto | discriminate]. Qed.

Lemma np_index_in_range n i :
  0 ≤ i < Z.of_nat n → np_index n i = Ok (Z.to_nat i).
Proof. intros. unfold np_index. by rewrite bool_decide_eq_true_2. Qed.

Lemma np_get_in_range a i x :
  0 ≤ i → a !! Z.to_nat i = Some x → np_get a i = Ok x.
Proof.
  intros Hi Hx. unfold np_get.
  rewrite np_index_in_range; [simpl; by rewrite Hx|].
  apply lookup_lt_Some in Hx. lia.
Qed.

Lemma mapM_Ok_fmap {B} (f : A → result B) (g : A → B) (l : list A) :
  (∀ x, x ∈ l → f x = Ok (g x)) → mapM f l = Ok (g <$> l).
Proof.
  induction l as [|x l IH]; intros Hf; [done|]. simpl.
  rewrite Hf; [|left]. simpl. rewrite IH; [done|].
  intros y Hy. apply Hf. by right.
Qed.

Lemma mapM_fmap {B C} (f : B → result C) (h : A → B) (l : list A) :
  mapM f (h <$> l) = mapM (λ x, f (h x)) l.
Proof.
  induction l as [|x l IH]; [done|].
  change (mapM f (h <$> x :: l)) with (y ← f (h x); k ← mapM f (h <$> l); mret (y :: k)).
  by rewrite IH.
Qed.

Lemma mapM_Ok_inv {B} (f : A → result B) (l : list A) (k : list B) :
  mapM f l = Ok k → Forall2 (λ x y, f x = Ok y) l k.
Proof.
  revert k. induction l as [|x l IH]; intros k; simpl.
  - intros [= <-]. constructor.
  - intros Hk. apply bind_Ok in Hk as (y & Hy & Hk).
    apply bind_Ok in Hk as (k' & Hk' & [= <-]). constructor; auto.
Qed.

Lemma elem_of_concat (x : A) (ls : list (list A)) :
  x ∈ concat ls ↔ ∃ l, l ∈ ls ∧ x ∈ l.
Proof.
  rewrite list_elem_of_In, in_concat. split.
  - intros (l & ?%list_elem_of_In & ?%list_elem_of_In). eauto.
  - intros (l & ?%list_elem_of_In & ?%list_elem_of_In). eauto.
Qed.

Lemma py_get_Ok a i x : py_get a i = Ok x ↔ a !! i = Some x.
Proof. unfold py_get. destruct (a !! i); naive_solver. Qed.
End np_lemmas.

Lemma foldl_min_le x l : foldl Z.min x l ≤ x ∧ Forall (λ y, foldl Z.min x l ≤ y) l.
Proof.
  revert x. induction l as [|y l IH]; intros x; simpl; [split; [lia | constructor]|].
  destruct (IH (Z.min x y)) as [H1 H2]. split; [lia|]. constructor; [lia | done].
Qed.

Lemma foldl_max_ge x l : x ≤ foldl Z.max x l ∧ Forall (λ y, y ≤ foldl Z.max x l) l.
Proof.
  revert x. induction l as [|y l IH]; intros x; simpl; [split; [lia | constructor]|].
  destruct (IH (Z.max x y)) as [H1 H2]. split; [lia|]. constructor; [lia | done].
Qed.

Lemma foldl_min_elem x l : foldl Z.min x l ∈ x :: l.
Proof.
  revert x. induction l as [|y l IH]; intros x; simpl; [left|].
  pose proof (IH (Z.min x y)) as Hm. apply elem_of_cons in Hm as [Hm|Hm].
  - rewrite Hm. destruct (Z.min_spec x y) as [[_ ->]|[_ ->]]; [left | right; left].
  - right. by right.
Qed.

Lemma foldl_max_elem x l : foldl Z.max x l ∈ x :: l.
Proof.
  revert x. induction l as [|y l IH]; intros x; simpl; [left|].
  pose proof (IH (Z.max x y)) as Hm. apply elem_of_cons in Hm as [Hm|Hm].
  - rewrite Hm. destruct (Z.max_spec x y) as [[_ ->]|[_ ->]]; [right; left | left].
  - right. by right.
Qed.

Lemma Forall2_elem_of_r {A B} (P : A → B → Prop) l k y :
  Forall2 P l k → y ∈ k → ∃ x, x ∈ l ∧ P x y.
Proof.
  intros HF (i & Hi)%list_elem_of_lookup_1.
  destruct (Forall2_lookup_r _ _ _ _ _ HF Hi) as (x & Hx & HP).
  exists x. split; [by eapply list_elem_of_lookup_2 | done].
Qed.

Lemma np_min_Ok a : a ≠ [] → ∃ m, np_min a = Ok m ∧ Forall (λ y, m ≤ y) a.
Proof.
  destruct a as [|x a]; [done|]. intros _. eexists; split; [done|].
  destruct (foldl_min_le x a). by constructor.
Qed.

Lemma np_max_Ok a : a ≠ [] → ∃ m, np_max a = Ok m ∧ Forall (λ y, y ≤ m) a.
Proof.
  destruct a as [|x a]; [done|]. intros _. eexists; split; [done|].
  destruct (foldl_max_ge x a). by constructor.
Qed.

(** ** The bone-index remapper *)

Lemma index_in_absent used v : v ∉ used → index_in used v = 0.
Proof.
  destruct used as [|u used]; [done|]. intros Hv. simpl.
  rewrite decide_False; [|intros ->; apply Hv; left].
  rewrite decide_False; [done|]. intros ?. apply Hv. by right.
Qed.

Lemma index_in_lookup used v :
  v ∈ used → 0 ≤ index_in used v ∧ used !! Z.to_nat (index_in used v) = Some v.
Proof.
  induction used as [|u used IH]; [by intros ?%elem_of_nil|].
  intros Hv. simpl. destruct (decide (u = v)) as [-> |Hne]; [done|].
  apply elem_of_cons in Hv as [-> |Hv]; [done|].
  rewrite decide_True by done. destruct (IH Hv) as [H0 Hl]. split; [lia|].
  replace (Z.to_nat (1 + index_in used v)) with (S (Z.to_nat (index_in used v))) by lia.
  done.
Qed.

Lemma index_in_bound used v : used ≠ [] → 0 ≤ index_in used v < Z.of_nat (length used).
Proof.
  intros Hne. destruct (decide (v ∈ used)) as [Hv|Hv].
  - destruct (index_in_lookup _ _ Hv) as [H0 Hl]. apply lookup_lt_Some in Hl. lia.
  - rewrite index_in_absent by done. destruct used; [done|]. simpl. lia.
Qed.

(** In a strictly increasing list the position of an element is the number
    of smaller elements. *)
Lemma index_in_sorted used v :
  StronglySorted Z.lt used → v ∈ used →
  index_in used v = Z.of_nat (length (filter (λ u, u < v) used)).
Proof.
  induction 1 as [|u used Hs IH Hu]; [by intros ?%elem_of_nil|].
  intros Hv. simpl. rewrite filter_cons. destruct (decide (u = v)) as [-> |Hne].
  - rewrite decide_False by lia.
    assert (filter (λ u, u < v) used = []) as ->; [|done].
    apply elem_of_nil_inv. intros x [Hx1 Hx2]%list_elem_of_filter.
    rewrite Forall_forall in Hu. specialize (Hu x Hx2). lia.
  - apply elem_of_cons in Hv as [-> |Hv]; [done|].
    rewrite decide_True by done. rewrite IH by done.
    rewrite Forall_forall in Hu. specialize (Hu v Hv).
    rewrite decide_True by lia. simpl. lia.
Qed.

Lemma StronglySorted_lt_NoDup (l : list Z) : StronglySorted Z.lt l → NoDup l.
Proof.
  induction 1 as [|x l Hs IH Hx]; constructor; [|done].
  intros Hin. rewrite Forall_forall in Hx. specialize (Hx x Hin). lia.
Qed.

(** The lookup table after [lut[submesh_bone_indices - lo] = np.arange(...)]. *)
Lemma np_put_lut lo used : ∀ (k0 : nat) (lut : list Z),
  NoDup used →
  (∀ u, u ∈ used → 0 ≤ u - lo < Z.of_nat (length lut)) →
  ∃ lut', np_put lut ((λ b, b - lo) <$> used) (Z.of_nat <$> seq k0 (length used)) = Ok lut'
    ∧ length lut' = length lut
    ∧ ∀ v, 0 ≤ v - lo < Z.of_nat (length lut) →
        lut' !! Z.to_nat (v - lo) =
          if decide (v ∈ used) then Some (Z.of_nat k0 + index_in used v)
          else lut !! Z.to_nat (v - lo).
Proof.
  induction used as [|u used IH]; intros k0 lut Hnd Hin.
  - exists lut. split_and!; [done..|]. intros v Hv.
    rewrite decide_False; [done | apply not_elem_of_nil].
  - apply NoDup_cons in Hnd as [Hu Hnd].
    assert (0 ≤ u - lo < Z.of_nat (length lut)) as Hur by (apply Hin; left).
    unfold np_put. simpl. rewrite np_index_in_range by done. simpl.
    destruct (IH (S k0) (<[Z.to_nat (u - lo) := Z.of_nat k0]> lut) Hnd) as (lut' & Hput & Hlen & Hlk).
    { intros u' Hu'. rewrite length_insert. apply Hin. by right. }
    exists lut'. split_and!.
    + exact Hput.
    + by rewrite Hlen, length_insert.
    + intros v Hv. rewrite Hlk by (by rewrite length_insert).
      destruct (decide (u = v)) as [-> |Hne].
      * rewrite decide_False by done. rewrite decide_True by left.
        rewrite list_lookup_insert_eq by lia. f_equal. lia.
      * destruct (decide (v ∈ used)) as [Hvu|Hvu].
        -- rewrite decide_True by (by right). f_equal. lia.
        -- rewrite decide_False by (by intros [-> |?]%elem_of_cons).
           rewrite list_lookup_insert_ne by lia. done.
Qed.

Lemma wrap32_small z : - 2 ^ 31 ≤ z < 2 ^ 31 → wrap32 z = z.
Proof. intros Hz. unfold wrap32. rewrite Z.mod_small; lia. Qed.

(** What the remapper computes when the values at hand span less than
    [2^31], whatever the entries of [bone_indices] are: each entry is
    replaced by [index_in] of it. *)
Lemma make_bone_indices_local_spec bone_indices used :
  used ≠ [] → concat bone_indices ≠ [] → NoDup used →
  (∀ u v, u ∈ used ++ concat bone_indices → v ∈ used ++ concat bone_indices →
     v - u + 1 < 2 ^ 31) →
  make_bone_indices_local bone_indices used
  = Ok ((λ row : list Z, index_in used <$> row) <$> bone_indices).
Proof.
  intros Hused Harr Hnd Hspan. unfold make_bone_indices_local.
  destruct (np_min_Ok _ Harr) as (bmin & Hbmin' & Hbmin).
  destruct (np_min_Ok _ Hused) as (smin & Hsmin' & Hsmin).
  destruct (np_max_Ok _ Harr) as (bmax & Hbmax' & Hbmax).
  destruct (np_max_Ok _ Hused) as (smax & Hsmax' & Hsmax).
  assert (bmin ∈ concat bone_indices ∧ bmax ∈ concat bone_indices
          ∧ smin ∈ used ∧ smax ∈ used) as (Hb1 & Hb2 & Hs1 & Hs2).
  { split_and!.
    - destruct (concat bone_indices) as [|x a]; [done|]. injection Hbmin' as <-.
      apply foldl_min_elem.
    - destruct (concat bone_indices) as [|x a]; [done|]. injection Hbmax' as <-.
      apply foldl_max_elem.
    - destruct used as [|x a]; [done|]. injection Hsmin' as <-. apply foldl_min_elem.
    - destruct used as [|x a]; [done|]. injection Hsmax' as <-. apply foldl_max_elem. }
  rewrite Hbmin', Hsmin', Hbmax', Hsmax'. simpl.
  set (lo := Z.min bmin smin). set (hi := Z.max bmax smax).
  rewrite Forall_forall in Hbmin, Hsmin, Hbmax, Hsmax.
  assert (∀ u, u ∈ used → lo ≤ u ≤ hi) as Hur.
  { intros u Hu. specialize (Hsmin u Hu). specialize (Hsmax u Hu). lia. }
  assert (∀ v, v ∈ concat bone_indices → lo ≤ v ≤ hi) as Hvr.
  { intros v Hv. specialize (Hbmin v Hv). specialize (Hbmax v Hv). lia. }
  assert (lo ∈ used ++ concat bone_indices ∧ hi ∈ used ++ concat bone_indices)
    as [Hlo Hhi].
  { unfold lo, hi. split.
    - destruct (Z.min_spec bmin smin) as [[_ ->]|[_ ->]]; apply elem_of_app; auto.
    - destruct (Z.max_spec bmax smax) as [[_ ->]|[_ ->]]; apply elem_of_app; auto. }
  assert (0 ≤ hi - lo ∧ hi - lo + 1 < 2 ^ 31) as [Hspan0 Hspan1].
  { split; [|by apply Hspan]. destruct used as [|u ?]; [done|].
    specialize (Hur u ltac:(left)). lia. }
  rewrite (wrap32_small (hi - lo)) by lia. rewrite wrap32_small by lia.
  unfold np_zeros. rewrite decide_False by lia. simpl.
  set (lut := replicate (Z.to_nat (hi - lo + 1)) 0).
  assert (Z.of_nat (length lut) = hi - lo + 1) as Hlen.
  { unfold lut. rewrite length_replicate. lia. }
  destruct (np_put_lut lo used 0 lut Hnd) as (lut' & Hput & Hlen' & Hlk).
  { intros u Hu. specialize (Hur u Hu). lia. }
  assert ((λ b, wrap32 (b - lo)) <$> used = (λ b, b - lo) <$> used) as ->.
  { apply list_fmap_ext. intros i u Hu%list_elem_of_lookup_2.
    specialize (Hur u Hu). apply wrap32_small. lia. }
  unfold np_arange. rewrite Hput. simpl.
  unfold np_take2. rewrite mapM_fmap.
  apply mapM_Ok_fmap. intros row Hrow. unfold np_take. rewrite mapM_fmap.
  apply mapM_Ok_fmap. intros v Hv. simpl.
  assert (lo ≤ v ≤ hi) as Hv'.
  { apply Hvr. apply elem_of_concat. eauto. }
  rewrite wrap32_small by lia.
  specialize (Hlk v ltac:(lia)).
  apply np_get_in_range; [lia|]. rewrite Hlk.
  destruct (decide (v ∈ used)) as [Hin|Hin].
  - done.
  - rewrite index_in_absent by done. unfold lut.
    apply lookup_replicate_2. lia.
Qed.

(** Whatever the input, a lookup table filled from [np.arange] only gives
    positions of the used-bone array. *)
Lemma np_put_Forall (P : Z → Prop) idx : ∀ vals lut lut',
  Forall P lut → Forall P vals → np_put lut idx vals = Ok lut' → Forall P lut'.
Proof.
  unfold np_put. induction idx as [|i idx IH]; intros vals lut lut' Hlut Hvals.
  - simpl. by intros [= <-].
  - destruct vals as [|v vals]; [simpl; by intros [= <-]|].
    apply Forall_cons in Hvals as [Hv Hvals]. simpl.
    intros Hput. apply bind_Ok in Hput as (lut1 & Hlut1 & Hput).
    apply bind_Ok in Hlut1 as (k & _ & [= <-]).
    eapply IH; [| |exact Hput]; [|done].
    apply Forall_insert; done.
Qed.

Lemma make_bone_indices_local_range bone_indices used out :
  make_bone_indices_local bone_indices used = Ok out →
  Forall (Forall (λ v, 0 ≤ v < Z.of_nat (length used))) out.
Proof.
  unfold make_bone_indices_local. intros Hout.
  apply bind_Ok in Hout as (bmin & _ & Hout).
  apply bind_Ok in Hout as (smin & Hsmin & Hout).
  apply bind_Ok in Hout as (bmax & _ & Hout).
  apply bind_Ok in Hout as (smax & _ & Hout).
  apply bind_Ok in Hout as (lut & Hlut & Hout).
  apply bind_Ok in Hout as (lut' & Hput & Hout).
  assert (0 < Z.of_nat (length used)) as Hlen.
  { destruct used; [discriminate | simpl; lia]. }
  assert (Forall (λ v, 0 ≤ v < Z.of_nat (length used)) lut') as Hlut'.
  { eapply np_put_Forall; [| |exact Hput].
    - unfold np_zeros in Hlut. case_decide; [discriminate|]. injection Hlut as <-.
      apply Forall_replicate. lia.
    - unfold np_arange. apply Forall_fmap, Forall_forall.
      intros k Hk%elem_of_seq. simpl. lia. }
  apply mapM_Ok_inv in Hout. apply Forall_forall. intros row' Hrow'.
  destruct (Forall2_elem_of_r _ _ _ _ Hout Hrow') as (row & _ & Hrow).
  apply mapM_Ok_inv in Hrow. apply Forall_forall. intros v Hv.
  destruct (Forall2_elem_of_r _ _ _ _ Hrow Hv) as (i & _ & Hi).
  unfold np_get in Hi. apply bind_Ok in Hi as (k & _ & Hi).
  destruct (lut' !! k) eqn:Hk; [|discriminate]. injection Hi as ->.
  rewrite Forall_forall in Hlut'. apply Hlut'. by eapply list_elem_of_lookup_2.
Qed.

Lemma make_bone_indices_local_Ok_inv bone_indices used out :
  make_bone_indices_local bone_indices used = Ok out →
  used ≠ [] ∧ concat bone_indices ≠ [].
Proof.
  unfold make_bone_indices_local. intros Hout.
  destruct (concat bone_indices) eqn:Hc; [discriminate|].
  destruct used; [discriminate|]. done.
Qed.

Lemma make_bone_indices_local_no_used bone_indices :
  make_bone_indices_local bone_indices [] = Raise ValueError.
Proof. unfold make_bone_indices_local. by destruct (concat bone_indices). Qed.

Lemma span_of_bounds (l : list Z) (lo hi : Z) :
  Forall (λ x, lo ≤ x ≤ hi) l → hi - lo + 1 < 2 ^ 31 →
  ∀ u v, u ∈ l → v ∈ l → v - u + 1 < 2 ^ 31.
Proof.
  rewrite Forall_forall. intros Hl Hspan u v Hu Hv.
  specialize (Hl u Hu) as Hu'. specialize (Hl v Hv) as Hv'. lia.
Qed.

(** C8 (amended): for a non-empty, strictly increasing array of used bone
    indices whose values span less than [2^31], and a non-empty input array
    all of whose entries are used bones, [make_bone_indices_local] returns
    an array of the same shape in which each entry is the position of the
    corresponding input value in the sorted used-bone array (the number of
    smaller used bones). *)
Theorem make_bone_indices_local_positions (bone_indices : list (list Z)) (used : list Z) :
  used ≠ [] → StronglySorted Z.lt used → concat bone_indices ≠ [] →
  Forall (Forall (λ v, v ∈ used)) bone_indices →
  (∀ u v, u ∈ used → v ∈ used → v - u + 1 < 2 ^ 31) →
  ∃ out, make_bone_indices_local bone_indices used = Ok out
    ∧ Forall2 (Forall2 (λ v k,
         0 ≤ k ∧ used !! Z.to_nat k = Some v
         ∧ k = Z.of_nat (length (filter (λ u, u < v) used))))
        bone_indices out.
Proof.
  intros Hused Hsorted Harr Hall Hspan.
  assert (∀ v, v ∈ used ++ concat bone_indices → v ∈ used) as Hin.
  { intros v [Hv|Hv]%elem_of_app; [done|].
    apply elem_of_concat in Hv as (row & Hrow & Hv).
    rewrite Forall_forall in Hall. specialize (Hall row Hrow).
    rewrite Forall_forall in Hall. by apply Hall. }
  eexists. split.
  { apply make_bone_indices_local_spec; auto using StronglySorted_lt_NoDup. }
  apply Forall2_fmap_r, Forall_Forall2_diag.
  eapply Forall_impl; [exact Hall|]. intros row Hrow. simpl.
  apply Forall2_fmap_r, Forall_Forall2_diag.
  eapply Forall_impl; [exact Hrow|]. intros v Hv. simpl.
  destruct (index_in_lookup used v Hv) as [H0 Hl].
  split_and!; [done..|]. by apply index_in_sorted.
Qed.

Lemma make_bone_indices_local_positions_witness :
  ∃ out, make_bone_indices_local [[5; 2; 5; 7]; [9; 9; 2; 2]] [2; 5; 7; 9] = Ok out
    ∧ Forall2 (Forall2 (λ v k,
         0 ≤ k ∧ [2; 5; 7; 9] !! Z.to_nat k = Some v
         ∧ k = Z.of_nat (length (filter (λ u, u < v) [2; 5; 7; 9]))))
        [[5; 2; 5; 7]; [9; 9; 2; 2]] out.
Proof.
  apply make_bone_indices_local_positions.
  - done.
  - repeat (constructor; [|repeat constructor; lia]). constructor.
  - done.
  - repeat (constructor; [repeat (constructor; [apply (bool_decide_unpack _); exact I|])|]);
      constructor.
  - apply (span_of_bounds _ 2 9); [repeat constructor; lia | lia].
Defined.

(** C8 as stated fails on a zero-size input array: all its (no) entries
    belong to the used set, and [bone_indices.min()] raises. *)
Lemma make_bone_indices_local_empty_input :
  [3] ≠ [] ∧ StronglySorted Z.lt [3] ∧ Forall (Forall (λ v, v ∈ [3])) []
  ∧ make_bone_indices_local [] [3] = Raise ValueError.
Proof. split_and!; [done | repeat constructor | constructor | reflexivity]. Qed.

(** C10 (amended): when the used-bone array is non-empty (and strictly
    increasing, as [sorted(set)] is) and the values at hand span less than
    [2^31], an entry of the input absent from it, the sentinel -1 included,
    comes out as local index 0 without an exception, and 0 is also the local
    index of the smallest used bone. *)
Theorem make_bone_indices_local_absent_is_zero
    (bone_indices : list (list Z)) (used : list Z) (i j : nat) (row : list Z) (v : Z) :
  used ≠ [] → StronglySorted Z.lt used →
  (∀ u w, u ∈ used ++ concat bone_indices → w ∈ used ++ concat bone_indices →
     w - u + 1 < 2 ^ 31) →
  bone_indices !! i = Some row → row !! j = Some v → v ∉ used →
  ∃ out row' smallest,
    make_bone_indices_local bone_indices used = Ok out
    ∧ out !! i = Some row' ∧ row' !! j = Some 0
    ∧ head used = Some smallest ∧ Forall (λ u, smallest ≤ u) used
    ∧ ∀ i2 j2 row2, bone_indices !! i2 = Some row2 → row2 !! j2 = Some smallest →
        ∃ row2', out !! i2 = Some row2' ∧ row2' !! j2 = Some 0.
Proof.
  intros Hused Hsorted Hspan Hi Hj Hv.
  assert (concat bone_indices ≠ []) as Harr.
  { intros Hnil. assert (v ∈ concat bone_indices) as Hin.
    { apply elem_of_concat. exists row. split; by eapply list_elem_of_lookup_2. }
    rewrite Hnil in Hin. by apply elem_of_nil in Hin. }
  destruct used as [|s used]; [done|].
  exists ((λ row : list Z, index_in (s :: used) <$> row) <$> bone_indices),
         (index_in (s :: used) <$> row), s.
  split_and!.
  - apply make_bone_indices_local_spec; auto using StronglySorted_lt_NoDup.
  - by rewrite list_lookup_fmap, Hi.
  - rewrite list_lookup_fmap, Hj. cbn [fmap option_fmap option_map]. f_equal.
    by apply index_in_absent.
  - done.
  - apply StronglySorted_inv in Hsorted as [_ Hs]. constructor; [lia|].
    eapply Forall_impl; [exact Hs|]. simpl. lia.
  - intros i2 j2 row2 Hi2 Hj2. exists (index_in (s :: used) <$> row2).
    rewrite !list_lookup_fmap, Hi2, Hj2. simpl. by rewrite decide_True.
Qed.

Lemma make_bone_indices_local_absent_is_zero_witness :
  ∃ out row' smallest,
    make_bone_indices_local [[4; -1; -1; -1]; [6; 4; 5; -1]] [4; 6] = Ok out
    ∧ out !! 1%nat = Some row' ∧ row' !! 2%nat = Some 0
    ∧ head [4; 6] = Some smallest ∧ Forall (λ u, smallest ≤ u) [4; 6]
    ∧ ∀ i2 j2 row2, [[4; -1; -1; -1]; [6; 4; 5; -1]] !! i2 = Some row2 →
        row2 !! j2 = Some smallest →
        ∃ row2', out !! i2 = Some row2' ∧ row2' !! j2 = Some 0.
Proof.
  apply (make_bone_indices_local_absent_is_zero
           [[4; -1; -1; -1]; [6; 4; 5; -1]] [4; 6] 1 2 [6; 4; 5; -1] 5).
  - done.
  - repeat (constructor; [|repeat constructor; lia]). constructor.
  - apply (span_of_bounds _ (-1) 6); [repeat constructor; lia | lia].
  - reflexivity.
  - reflexivity.
  - intros Hin. repeat (apply elem_of_cons in Hin as [Hin|Hin]; [lia|]).
    by apply elem_of_nil in Hin.
Defined.

(** C10 as stated fails when no bone is used: the sentinel is absent from
    the empty used-bone array, and the call raises [ValueError] whatever the
    input array is. [subsplit_faces] makes such a call for a bind-pose
    material whose slots all have weight zero. *)
Lemma make_bone_indices_local_no_used_bone :
  -1 ∉ ([] : list Z)
  ∧ make_bone_indices_local [[-1; -1; -1; -1]] [] = Raise ValueError
  ∧ (∀ bone_indices, make_bone_indices_local bone_indices [] = Raise ValueError)
  ∧ @subsplit_faces ExactQ string _ _ 0 Examples.all_unused true 3 false
    = Raise ValueError.
Proof.
  split_and!.
  - apply not_elem_of_nil.
  - reflexivity.
  - apply make_bone_indices_local_no_used.
  - vm_compute. reflexivity.
Qed.

(** ** The bone-count-bounded subsplit *)

Lemma enumerate_snoc {A} (l : list A) (x : A) :
  enumerate (l ++ [x]) = enumerate l ++ [(length l, x)].
Proof.
  unfold enumerate. rewrite length_app. simpl.
  replace (length l + 1)%nat with (S (length l)) by lia.
  rewrite seq_S. simpl. rewrite zip_with_app by (by rewrite length_seq). done.
Qed.

Lemma subsplit_scan_snoc max faces face :
  subsplit_scan max (faces ++ [face])
  = subsplit_step max (subsplit_scan max faces) (length faces, face).
Proof. unfold subsplit_scan. by rewrite enumerate_snoc, foldl_app. Qed.

(** The two outcomes of one iteration. *)
Lemma subsplit_step_exceed max st face_index face :
  max + 1 < Z.of_nat (size (unique_indices st ∪ list_to_set face)) →
  subsplit_step max st (face_index, face)
  = mkSubsplitState (subsplit_face_indices st ++ [face_index])
      (subsplit_bone_indices st ++ [sorted_bones (unique_indices st)])
      ({[-1]} ∪ list_to_set face).
Proof. intros. unfold subsplit_step. by rewrite bool_decide_eq_true_2. Qed.

Lemma subsplit_step_within max st face_index face :
  Z.of_nat (size (unique_indices st ∪ list_to_set face)) ≤ max + 1 →
  subsplit_step max st (face_index, face)
  = mkSubsplitState (subsplit_face_indices st) (subsplit_bone_indices st)
      (unique_indices st ∪ list_to_set face).
Proof. intros. unfold subsplit_step. rewrite bool_decide_eq_false_2; [done | lia]. Qed.

(** The recorded face indices start with 0 and every later one is the index
    of a face already seen. *)
Lemma subsplit_scan_face_indices max faces :
  ∃ later, subsplit_face_indices (subsplit_scan max faces) = 0%nat :: later
    ∧ Forall (λ k, (k < length faces)%nat) later.
Proof.
  induction faces as [|face faces IH] using rev_ind.
  - exists []. split; [done | constructor].
  - destruct IH as (later & Hfi & Hlt). rewrite subsplit_scan_snoc, length_app. simpl.
    assert (Forall (λ k, (k < length faces + 1)%nat) later) as Hlt'.
    { eapply Forall_impl; [exact Hlt|]. simpl. lia. }
    unfold subsplit_step. case_bool_decide; simpl.
    + exists (later ++ [length faces]). rewrite Hfi. split; [done|].
      apply Forall_app. split; [done|]. constructor; [lia | constructor].
    + exists later. by rewrite Hfi.
Qed.

(** The sentinel never leaves the running set. *)
Lemma subsplit_scan_sentinel max faces : -1 ∈ unique_indices (subsplit_scan max faces).
Proof.
  induction faces as [|face faces IH] using rev_ind.
  - cbn. set_solver.
  - rewrite subsplit_scan_snoc. unfold subsplit_step.
    case_bool_decide; simpl; set_solver.
Qed.

Lemma subsplit_boundary_iff_aux max faces : ∀ N face,
  faces !! N = Some face →
  N ∈ drop 1 (subsplit_face_indices (subsplit_scan max faces))
  ↔ max + 1 < Z.of_nat (size (unique_indices (subsplit_scan max (take N faces))
                               ∪ list_to_set face)).
Proof.
  induction faces as [|f faces IH] using rev_ind; intros N face HN; [done|].
  rewrite subsplit_scan_snoc.
  destruct (subsplit_scan_face_indices max faces) as (later & Hfi & Hlt).
  destruct (decide (N < length faces)%nat) as [Hlt'|Hge].
  - rewrite lookup_app_l in HN by done.
    rewrite take_app_le by lia. rewrite <- (IH N face HN).
    unfold subsplit_step. case_bool_decide; simpl; [|done].
    rewrite Hfi. simpl. rewrite !drop_0, elem_of_app, list_elem_of_singleton. split; [|by left].
    intros [?|?]; [done | lia].
  - apply lookup_lt_Some in HN as HN'. rewrite length_app in HN'. simpl in HN'.
    assert (N = length faces) as -> by lia.
    rewrite list_lookup_middle in HN by done. injection HN as ->.
    rewrite take_app_length.
    unfold subsplit_step. case_bool_decide as Hex; simpl.
    + rewrite Hfi. simpl. rewrite drop_0. split; [done|]. intros _.
      rewrite elem_of_app, list_elem_of_singleton. by right.
    + rewrite Hfi. simpl. rewrite drop_0. split; [|done]. intros Hin.
      rewrite Forall_forall in Hlt. specialize (Hlt _ Hin). lia.
Qed.

(** C4 (amended): a subsplit boundary is placed immediately before face [N]
    exactly when the union of the running subsplit's bone set (sentinel
    included) with the bones of face [N] would have more than
    [max_bones_per_submesh + 1] elements; a face that brings the count to
    exactly [max_bones_per_submesh + 1] is absorbed into the running subsplit.
    The new subsplit then starts with the bones of face [N] and the
    sentinel. *)
Theorem subsplit_boundary_iff (max_bones_per_submesh : Z) (faces : list (list Z))
    (N : nat) (face : list Z) :
  faces !! N = Some face →
  let running := unique_indices (subsplit_scan max_bones_per_submesh (take N faces)) in
  let after := unique_indices (subsplit_scan max_bones_per_submesh (take (S N) faces)) in
  -1 ∈ running
  ∧ (N ∈ drop 1 (subsplit_face_indices (subsplit_scan max_bones_per_submesh faces))
     ↔ max_bones_per_submesh + 1 < Z.of_nat (size (running ∪ list_to_set face)))
  ∧ (max_bones_per_submesh + 1 < Z.of_nat (size (running ∪ list_to_set face)) →
     after = {[-1]} ∪ list_to_set face)
  ∧ (Z.of_nat (size (running ∪ list_to_set face)) ≤ max_bones_per_submesh + 1 →
     after = running ∪ list_to_set face).
Proof.
  intros HN running after. split_and!.
  - apply subsplit_scan_sentinel.
  - by apply subsplit_boundary_iff_aux.
  - intros Hex. unfold after. rewrite (take_S_r _ _ _ HN), subsplit_scan_snoc.
    by rewrite subsplit_step_exceed.
  - intros Hin. unfold after. rewrite (take_S_r _ _ _ HN), subsplit_scan_snoc.
    by rewrite subsplit_step_within.
Qed.

(** *** The ceiling on the bones of a subsplit *)

Lemma sorted_bones_Permutation X : sorted_bones X ≡ₚ elements (X ∖ {[-1]}).
Proof. apply merge_sort_Permutation. Qed.

Lemma sorted_bones_NoDup X : NoDup (sorted_bones X).
Proof. rewrite sorted_bones_Permutation. apply NoDup_elements. Qed.

Lemma elem_of_sorted_bones X v : v ∈ sorted_bones X ↔ v ∈ X ∧ v ≠ -1.
Proof. rewrite sorted_bones_Permutation, elem_of_elements. set_solver. Qed.

Lemma length_sorted_bones X :
  -1 ∈ X → Z.of_nat (length (sorted_bones X)) = Z.of_nat (size X) - 1.
Proof.
  intros Hin. rewrite sorted_bones_Permutation.
  change (length (elements (X ∖ {[-1]}))) with (size (X ∖ {[-1]})).
  rewrite size_difference by set_solver. rewrite size_singleton.
  assert (size X ≠ 0%nat); [|lia].
  intros Hz%size_empty_inv. set_solver.
Qed.

Lemma sorted_bones_StronglySorted X : StronglySorted Z.lt (sorted_bones X).
Proof.
  assert (StronglySorted Z.le (sorted_bones X)) as Hle.
  { apply (StronglySorted_merge_sort Z.le). }
  pose proof (sorted_bones_NoDup X) as Hnd.
  induction Hle as [|x l Hs IH Hx]; [constructor|].
  apply NoDup_cons in Hnd as [Hnin Hnd]. constructor; [by apply IH|].
  rewrite Forall_forall in Hx |- *. intros y Hy. specialize (Hx y Hy).
  assert (x ≠ y) by (by intros ->). lia.
Qed.

Lemma subsplit_scan_bounded max faces :
  0 ≤ max →
  (∀ face, face ∈ faces → Z.of_nat (size ({[-1]} ∪ list_to_set face : gset Z)) ≤ max + 1) →
  Z.of_nat (size (unique_indices (subsplit_scan max faces))) ≤ max + 1
  ∧ Forall (λ bones, Z.of_nat (length bones) ≤ max)
           (subsplit_bone_indices (subsplit_scan max faces)).
Proof.
  intros Hmax. induction faces as [|face faces IH] using rev_ind; intros Hfaces.
  - cbn. rewrite size_singleton. split; [lia | constructor].
  - destruct IH as [IH1 IH2].
    { intros f Hf. apply Hfaces. apply elem_of_app. by left. }
    rewrite subsplit_scan_snoc. unfold subsplit_step.
    pose proof (subsplit_scan_sentinel max faces) as Hs.
    case_bool_decide; simpl.
    + split.
      * apply Hfaces. apply elem_of_app. right. by apply list_elem_of_singleton.
      * apply Forall_app. split; [done|]. constructor; [|constructor].
        rewrite length_sorted_bones by done. lia.
    + split; [lia | done].
Qed.

Section subsplit_faces.
Context `{F32 : Float32} `{Countable K}.

(** What [subsplit_faces] emits, when it returns: every entry is built
    from one of the recorded bone arrays and the localisation of a slice
    of the loops. *)
Lemma subsplit_faces_Ok_inv material_index (loops : SArray K) is_bind_pose max unused subs :
  subsplit_faces material_index loops is_bind_pose max unused = Ok subs →
  ∃ bone_indices faces,
    subsplit_bone_index_array loops is_bind_pose unused = Ok bone_indices
    ∧ np_reshape 12 (concat bone_indices) = Ok faces
    ∧ ∀ m sl bones, (m, sl, bones) ∈ subs →
        m = material_index
        ∧ bones ∈ subsplit_bone_indices (subsplit_scan max faces)
                  ++ [sorted_bones (unique_indices (subsplit_scan max faces))]
        ∧ ∃ a b local,
            make_bone_indices_local (slice a b bone_indices) bones = Ok local
            ∧ sl = mkSArray (sa_dtype loops)
                     (zip_with set_bone_indices local (slice a b (sa_rows loops))).
Proof.
  unfold subsplit_faces. intros Hsubs.
  apply bind_Ok in Hsubs as (bone_indices & Hbi & Hsubs).
  apply bind_Ok in Hsubs as (faces & Hfaces & Hsubs).
  exists bone_indices, faces. split_and!; [done..|].
  intros m sl bones Hin. apply mapM_Ok_inv in Hsubs.
  destruct (Forall2_elem_of_r _ _ _ _ Hsubs Hin) as ([i face_start] & _ & Hi).
  apply bind_Ok in Hi as (face_end & _ & Hi).
  apply bind_Ok in Hi as (bones_i & Hbones & Hi).
  apply bind_Ok in Hi as (local & Hlocal & Hi).
  injection Hi as <- <- <-. split_and!; [done| |].
  - apply py_get_Ok in Hbones. by eapply list_elem_of_lookup_2.
  - eauto.
Qed.

(** C5 (amended): when no single face references more than
    [max_bones_per_submesh] distinct non-sentinel bones, every subsplit
    that [subsplit_faces] emits has a bone array of at most
    [max_bones_per_submesh] distinct entries, none of them the sentinel,
    and every bone index stored in its loops is a position in that
    array. *)
Theorem subsplit_faces_bone_ceiling material_index (loops : SArray K)
    (is_bind_pose : bool) (max_bones_per_submesh : Z) (unused : bool)
    subs bi faces :
  subsplit_faces material_index loops is_bind_pose max_bones_per_submesh unused = Ok subs →
  subsplit_bone_index_array loops is_bind_pose unused = Ok bi →
  np_reshape 12 (concat bi) = Ok faces →
  (∀ face, face ∈ faces →
     Z.of_nat (size ({[-1]} ∪ list_to_set face : gset Z)) ≤ max_bones_per_submesh + 1) →
  ∀ m sl bones, (m, sl, bones) ∈ subs →
    Z.of_nat (length bones) ≤ max_bones_per_submesh
    ∧ StronglySorted Z.lt bones ∧ (-1 ∉ bones)
    ∧ ∀ r v, r ∈ sa_rows sl → v ∈ bone_indices r → 0 ≤ v < Z.of_nat (length bones).
Proof.
  intros Hsubs Hbi Hfaces Hbound m sl bones Hin.
  destruct (subsplit_faces_Ok_inv _ _ _ _ _ _ Hsubs)
    as (bi' & faces' & Hbi' & Hfaces' & Hinv).
  rewrite Hbi in Hbi'. injection Hbi' as <-.
  rewrite Hfaces in Hfaces'. injection Hfaces' as <-.
  destruct (Hinv m sl bones Hin) as (_ & Hbones & a & b & local & Hlocal & ->).
  destruct (make_bone_indices_local_Ok_inv _ _ _ Hlocal) as [Hne Harr].
  (* some face exists, so the bound on the faces gives [0 <= max] *)
  assert (0 ≤ max_bones_per_submesh) as Hmax.
  { destruct faces as [|face faces].
    - exfalso. apply elem_of_app in Hbones as [Hb|Hb%list_elem_of_singleton].
      + by apply elem_of_nil in Hb.
      + subst bones. by apply Hne.
    - specialize (Hbound face ltac:(left)).
      assert (size ({[-1]} ∪ list_to_set face : gset Z) ≠ 0%nat); [|lia].
      intros Hz%size_empty_inv.
      assert (-1 ∈ ({[-1]} ∪ list_to_set face : gset Z)) as Hin1
        by (apply elem_of_union_l; by apply elem_of_singleton).
      rewrite Hz in Hin1. by apply elem_of_empty in Hin1. }
  destruct (subsplit_scan_bounded max_bones_per_submesh faces Hmax Hbound) as [Hu Hrec].
  pose proof (subsplit_scan_sentinel max_bones_per_submesh faces) as Hs.
  assert (Z.of_nat (length bones) ≤ max_bones_per_submesh
          ∧ ∃ X, bones = sorted_bones X) as [Hlen [X ->]].
  { apply elem_of_app in Hbones as [Hb|Hb%list_elem_of_singleton].
    - rewrite Forall_forall in Hrec. split; [by apply Hrec|].
      clear -Hb. revert Hb.
      induction faces as [|face faces IH] using rev_ind; [by intros ?%elem_of_nil|].
      rewrite subsplit_scan_snoc. unfold subsplit_step. case_bool_decide; simpl; [|done].
      intros [?|Hb%list_elem_of_singleton]%elem_of_app; [by apply IH | eauto].
    - subst bones. rewrite length_sorted_bones by done. split; [lia | eauto]. }
  split_and!; [done | apply sorted_bones_StronglySorted | |].
  - rewrite elem_of_sorted_bones. naive_solver.
  - pose proof (make_bone_indices_local_range _ _ _ Hlocal) as Hrange.
  simpl. intros r v Hr Hv.
  apply list_elem_of_lookup_1 in Hr as (i & Hr).
  apply lookup_zip_with_Some in Hr as (row & r0 & -> & Hrow & _).
  simpl in Hv. apply list_elem_of_lookup_2 in Hrow.
  rewrite Forall_forall in Hrange. specialize (Hrange row Hrow).
  rewrite Forall_forall in Hrange. by apply Hrange.
Qed.
End subsplit_faces.

(** ** The subsplit on concrete loops *)

Lemma subsplit_boundary_iff_witness :
  let faces := [[0; -1; -1; -1; 0; -1; -1; -1; 0; -1; -1; -1];
                [1; 2; 3; -1; 1; 2; 3; -1; 1; 2; 3; -1]] in
  let face := [1; 2; 3; -1; 1; 2; 3; -1; 1; 2; 3; -1] in
  let running := unique_indices (subsplit_scan 3 (take 1 faces)) in
  let after := unique_indices (subsplit_scan 3 (take 2 faces)) in
  -1 ∈ running
  ∧ (1%nat ∈ drop 1 (subsplit_face_indices (subsplit_scan 3 faces))
     ↔ 3 + 1 < Z.of_nat (size (running ∪ list_to_set face)))
  ∧ (3 + 1 < Z.of_nat (size (running ∪ list_to_set face)) →
     after = {[-1]} ∪ list_to_set face)
  ∧ (Z.of_nat (size (running ∪ list_to_set face)) ≤ 3 + 1 →
     after = running ∪ list_to_set face).
Proof.
  exact (subsplit_boundary_iff 3
           [[0; -1; -1; -1; 0; -1; -1; -1; 0; -1; -1; -1];
            [1; 2; 3; -1; 1; 2; 3; -1; 1; 2; 3; -1]]
           1 [1; 2; 3; -1; 1; 2; 3; -1; 1; 2; 3; -1] eq_refl).
Defined.

(** C4 as stated fails: with [is_bind_pose = True] and
    [max_bones_per_submesh = 3], the second face of [two_faces] brings the
    running set to exactly 4 = 3 + 1 values (sentinel included), and no
    boundary is placed before it: one subsplit holds both faces. *)
Lemma subsplit_no_boundary_at_exact_limit :
  ∃ bone_indices faces face sl,
    subsplit_bone_index_array Examples.two_faces true false = Ok bone_indices
    ∧ np_reshape 12 (concat bone_indices) = Ok faces
    ∧ faces !! 1%nat = Some face
    ∧ (Z.of_nat (size (unique_indices (subsplit_scan 3 (take 1 faces)) ∪ list_to_set face))
       = 3 + 1)
    ∧ (1%nat ∉ drop 1 (subsplit_face_indices (subsplit_scan 3 faces)))
    ∧ subsplit_faces 0 Examples.two_faces true 3 false = Ok [(0%nat, sl, [0; 1; 2])].
Proof.
  assert ((λ subs : list (nat * @SArray ExactQ string _ _ * list Z), (λ s, (s.1.1, s.2)) <$> subs)
            <$> subsplit_faces 0 Examples.two_faces true 3 false
          = Ok [(0%nat, [0; 1; 2])]) as Hsubs by (vm_compute; reflexivity).
  destruct (subsplit_faces 0 Examples.two_faces true 3 false) as [subs|e];
    [|discriminate].
  destruct subs as [|[[m sl] b] [|? ?]]; try discriminate.
  injection Hsubs as -> ->.
  eexists _, _, _, sl. split_and!.
  - vm_compute. reflexivity.
  - vm_compute. reflexivity.
  - reflexivity.
  - vm_compute. reflexivity.
  - apply (bool_decide_unpack _). vm_compute. exact I.
  - reflexivity.
Qed.

Lemma subsplit_faces_bone_ceiling_witness :
  ∃ subs,
    subsplit_faces 0 Examples.two_faces true 3 false = Ok subs
    ∧ ∀ m sl bones, (m, sl, bones) ∈ subs →
        Z.of_nat (length bones) ≤ 3
        ∧ StronglySorted Z.lt bones ∧ (-1 ∉ bones)
        ∧ ∀ r v, r ∈ sa_rows sl → v ∈ bone_indices r → 0 ≤ v < Z.of_nat (length bones).
Proof.
  assert ((λ _, ()) <$> @subsplit_faces ExactQ string _ _ 0 Examples.two_faces true 3 false
          = Ok ())
    as Hsubs by (vm_compute; reflexivity).
  destruct (subsplit_faces 0 Examples.two_faces true 3 false) as [subs|e] eqn:Heq;
    [|discriminate].
  exists subs. split; [reflexivity|].
  eapply (subsplit_faces_bone_ceiling (F32 := ExactQ) 0%nat Examples.two_faces true 3 false).
  - exact Heq.
  - vm_compute. reflexivity.
  - vm_compute. reflexivity.
  - intros face Hin.
    clear Heq Hsubs.
    repeat (apply elem_of_cons in Hin as [-> |Hin]; [apply Z.leb_le; vm_compute; reflexivity|]).
    apply elem_of_nil in Hin. destruct Hin.
Defined.

(** C5 fails on the code: with [max_bones_per_submesh = 3] the second face
    of [wide_face] alone references the four bones 2, 3, 4 and 5; it is
    emitted as a subsplit of its own with four bones, and its loops use four
    distinct local bone indices. *)
Theorem subsplit_faces_exceeds_ceiling :
  3 ≤ 3
  ∧ ∃ sl0 sl1,
      subsplit_faces 0 Examples.wide_face true 3 false
      = Ok [(0%nat, sl0, [1]); (0%nat, sl1, [2; 3; 4; 5])]
      ∧ ¬ (Z.of_nat (length [2; 3; 4; 5]) ≤ 3)
      ∧ size (list_to_set (concat (bone_indices <$> sa_rows sl1)) : gset Z) = 4%nat.
Proof.
  split; [lia|].
  assert ((λ subs : list (nat * @SArray ExactQ string _ _ * list Z),
             (λ s, (s.1.1, bone_indices <$> sa_rows s.1.2, s.2)) <$> subs)
            <$> subsplit_faces 0 Examples.wide_face true 3 false
          = Ok [(0%nat, [[0; 0; 0; 0]; [0; 0; 0; 0]; [0; 0; 0; 0]], [1]);
                (0%nat, [[0; 1; 0; 0]; [2; 3; 0; 0]; [0; 0; 0; 0]], [2; 3; 4; 5])])
    as Hsubs by (vm_compute; reflexivity).
  destruct (subsplit_faces 0 Examples.wide_face true 3 false) as [subs|e];
    [|discriminate].
  destruct subs as [|[[m0 sl0] b0] [|[[m1 sl1] b1] [|? ?]]]; try discriminate.
  injection Hsubs as -> _ -> -> Hrows ->.
  exists sl0, sl1. split_and!.
  - reflexivity.
  - simpl. lia.
  - rewrite Hrows. vm_compute. reflexivity.
Qed.
(** ** The vertex reducer *)

Lemma foldM_inv {A B} (P : B → Prop) (f : B → A → result B) (xs : list A) : ∀ acc acc',
  (∀ b x b', P b → x ∈ xs → f b x = Ok b' → P b') →
  P acc → foldM f acc xs = Ok acc' → P acc'.
Proof.
induction xs as [|x xs IH]; intros acc acc' Hstep Hacc; simpl.
- by intros [= <-].
- intros Hf. apply bind_Ok in Hf as (b & Hb & Hf).
  eapply IH; [| |exact Hf].
  + intros b0 x0 b' ? ? ?. eapply Hstep; [done|by right|done].
  + eapply Hstep; [done|left|done].
Qed.

Lemma foldM_app {A B} (f : B → A → result B) (xs ys : list A) acc :
  foldM f acc (xs ++ ys) = acc' ← foldM f acc xs; foldM f acc' ys.
Proof.
revert acc. induction xs as [|x xs IH]; intros acc; simpl; [done|].
destruct (f acc x); simpl; [apply IH | done].
Qed.

Section merge_lemmas.
Context `{F32 : Float32}.
Context (uninit : nat → nat) (all_vertices : list Vertex) (loop_normals : list (list f32)).

Lemma tobytes_inj (v v' : Vertex) : tobytes v = tobytes v' → v = v'.
Proof. destruct v, v'. unfold tobytes. simpl. by intros [= -> -> ->]. Qed.

Local Abbreviation inv := (merge_inv uninit all_vertices loop_normals).

(** The state after a loop was given an existing vertex. *)
Lemma merge_inv_reuse st vd l idx v :
  inv st vd → (l < length loop_normals)%nat → l ∉ assigned_loop_indices st →
  vd !! idx = Some v → all_vertices !! l = Some v →
  inv (mkMergeState (vertex_indices_normals st) (inv_vertex_indices st)
         (reduced_vertex_indices st) (vertex_count st)
         (<[l := idx]> (m_loop_vertex_indices st))
         ({[l]} ∪ assigned_loop_indices st)) vd.
Proof.
intros [inv_vd0 inv_count0 inv_primary0 inv_inverted0 inv_occurrences0
        inv_assigned0 inv_length0 inv_unassigned0] Hl Hnew Hidx Hv. constructor; simpl; try done.
- intros l' [->%elem_of_singleton|Hl']%elem_of_union.
  + exists idx, v. split_and!; [|done..].
    apply list_lookup_insert_eq. by rewrite inv_length0.
  + destruct (inv_assigned0 l' Hl') as (idx' & v' & ? & ? & ?).
    exists idx', v'. split_and!; [|done..].
    rewrite list_lookup_insert_ne; [done|]. by intros ->.
- by rewrite length_insert.
- intros l' Hl' ?. rewrite list_lookup_insert_ne by set_solver.
  apply inv_unassigned0; [set_solver | done].
Qed.

(** The state after a loop created a new vertex, recorded in the primary
    table ([primary = true]) or in the inverted one. *)
Lemma merge_inv_new st vd l v n (primary : bool) :
  inv st vd → (l < length loop_normals)%nat → l ∉ assigned_loop_indices st →
  all_vertices !! l = Some v →
  (if primary then vertex_indices_normals st !! tobytes v = None
   else inv_vertex_indices st !! tobytes v = None) →
  inv (mkMergeState
         (if primary then <[tobytes v := (vertex_count st, n)]> (vertex_indices_normals st)
          else vertex_indices_normals st)
         (if primary then inv_vertex_indices st
          else <[tobytes v := vertex_count st]> (inv_vertex_indices st))
         (reduced_vertex_indices st ++ [l]) (vertex_count st + 1)
         (<[l := vertex_count st]> (m_loop_vertex_indices st))
         ({[l]} ∪ assigned_loop_indices st)) (vd ++ [v]).
Proof.
intros [inv_vd0 inv_count0 inv_primary0 inv_inverted0 inv_occurrences0
        inv_assigned0 inv_length0 inv_unassigned0] Hl Hnew Hv Hmiss. constructor; simpl.
- apply Forall2_app; [done|]. by repeat constructor.
- rewrite length_app. simpl. lia.
- intros key idx n'. destruct primary.
  + destruct (decide (key = tobytes v)) as [-> |Hne].
    * rewrite lookup_insert_eq. intros [= <- <-]. exists v.
      rewrite inv_count0. by rewrite list_lookup_middle.
    * rewrite lookup_insert_ne by done. intros Hk.
      destruct (inv_primary0 _ _ _ Hk) as (v' & ? & ?). exists v'.
      split; [by apply lookup_app_l_Some | done].
  + intros Hk. destruct (inv_primary0 _ _ _ Hk) as (v' & ? & ?). exists v'.
    split; [by apply lookup_app_l_Some | done].
- intros key idx. destruct primary.
  + intros Hk. destruct (inv_inverted0 _ _ Hk) as (v' & ? & ?). exists v'.
    split; [by apply lookup_app_l_Some | done].
  + destruct (decide (key = tobytes v)) as [-> |Hne].
    * rewrite lookup_insert_eq. intros [= <-]. exists v.
      rewrite inv_count0. by rewrite list_lookup_middle.
    * rewrite lookup_insert_ne by done. intros Hk.
      destruct (inv_inverted0 _ _ Hk) as (v' & ? & ?). exists v'.
      split; [by apply lookup_app_l_Some | done].
- intros key. rewrite filter_app, length_app, inv_occurrences0.
  rewrite filter_cons, filter_nil.
  destruct (decide (key = tobytes v)) as [-> |Hne].
  + rewrite decide_True by done. destruct primary.
    * rewrite lookup_insert_eq, Hmiss. simpl. lia.
    * rewrite lookup_insert_eq, Hmiss. simpl. lia.
  + rewrite decide_False by done. destruct primary.
    * rewrite lookup_insert_ne by done. simpl. lia.
    * rewrite lookup_insert_ne by done. simpl. lia.
- intros l' [->%elem_of_singleton|Hl']%elem_of_union.
  + exists (vertex_count st), v. split_and!; [| |done].
    * apply list_lookup_insert_eq. by rewrite inv_length0.
    * rewrite inv_count0. by rewrite list_lookup_middle.
  + destruct (inv_assigned0 l' Hl') as (idx' & v' & ? & ? & ?).
    exists idx', v'. split_and!; [| |done].
    * rewrite list_lookup_insert_ne; [done|]. by intros ->.
    * by apply lookup_app_l_Some.
- by rewrite length_insert.
- intros l' Hl' ?. rewrite list_lookup_insert_ne by set_solver.
  apply inv_unassigned0; [set_solver | done].
Qed.

(** One loop preserves the invariant; the vertex table only grows. *)
Lemma merge_loop_inv st vd l st' :
  inv st vd → merge_loop all_vertices loop_normals st l = Ok st' →
  ∃ vd', inv st' vd' ∧ vd `prefix_of` vd' ∧ l ∈ assigned_loop_indices st'
         ∧ assigned_loop_indices st ⊆ assigned_loop_indices st'.
Proof.
intros Hinv. unfold merge_loop.
destruct (decide (l ∈ assigned_loop_indices st)) as [Hin|Hnew].
{ intros [= <-]. by exists vd. }
intros Hst. apply bind_Ok in Hst as (v & Hv%py_get_Ok & Hst).
apply bind_Ok in Hst as (n & Hn%py_get_Ok & Hst).
apply lookup_lt_Some in Hn as Hl.
destruct (vertex_indices_normals st !! tobytes v) as [[idx en]|] eqn:Hprim.
- destruct (f32_lt_m09 (f32_dot n en)).
  + destruct (inv_vertex_indices st !! tobytes v) as [idx'|] eqn:Hinvt.
    * injection Hst as <-. exists vd. split_and!; [|done|set_solver..].
      destruct (inv_inverted _ _ _ _ _ Hinv _ _ Hinvt) as (v' & Hv' & ->%tobytes_inj).
      by apply merge_inv_reuse with (v := v).
    * injection Hst as <-. exists (vd ++ [v]).
      split_and!; [|by apply prefix_app_r|set_solver..].
      by apply (merge_inv_new st vd l v n false).
  + injection Hst as <-. exists vd. split_and!; [|done|set_solver..].
    destruct (inv_primary _ _ _ _ _ Hinv _ _ _ Hprim) as (v' & Hv' & ->%tobytes_inj).
    by apply merge_inv_reuse with (v := v).
- injection Hst as <-. exists (vd ++ [v]).
  split_and!; [|by apply prefix_app_r|set_solver..].
  by apply (merge_inv_new st vd l v n true).
Qed.

Lemma merge_inv_init :
  inv (mkMergeState ∅ ∅ [] 0 (uninit <$> seq 0 (length loop_normals)) ∅) [].
Proof.
constructor; simpl.
- constructor.
- done.
- intros key idx n. by rewrite lookup_empty.
- intros key idx. by rewrite lookup_empty.
- intros key. by rewrite !lookup_empty.
- intros l Hl. by apply elem_of_empty in Hl.
- by rewrite length_fmap, length_seq.
- intros l _ Hl. rewrite list_lookup_fmap, lookup_seq_lt by done. done.
Qed.

(** The loops of one submesh. *)
Lemma merge_triangles_inv (triangles : list (nat * nat * nat)) st vd st' :
  inv st vd →
  foldM (λ st triangle,
           foldM (merge_loop all_vertices loop_normals) st (triangle_loops triangle))
        st triangles = Ok st' →
  ∃ vd', inv st' vd' ∧ vd `prefix_of` vd'
    ∧ assigned_loop_indices st ⊆ assigned_loop_indices st'
    ∧ ∀ t l, t ∈ triangles → l ∈ triangle_loops t → l ∈ assigned_loop_indices st'.
Proof.
revert st vd. induction triangles as [|t triangles IH]; intros st vd Hinv; simpl.
- intros [= <-]. exists vd. split_and!; [done..|]. by intros ? ? ?%elem_of_nil.
- intros Hf. apply bind_Ok in Hf as (st1 & Hst1 & Hf).
  assert (∃ vd1, inv st1 vd1 ∧ vd `prefix_of` vd1
            ∧ assigned_loop_indices st ⊆ assigned_loop_indices st1
            ∧ ∀ l, l ∈ triangle_loops t → l ∈ assigned_loop_indices st1)
    as (vd1 & Hinv1 & Hp1 & Hs1 & Ht1).
  { clear Hf IH. revert st vd Hinv Hst1.
    induction (triangle_loops t) as [|l ls IHl]; intros st vd Hinv; simpl.
    - intros [= <-]. exists vd. split_and!; [done..|]. by intros ? ?%elem_of_nil.
    - intros Hf. apply bind_Ok in Hf as (st2 & Hst2 & Hf).
      destruct (merge_loop_inv _ _ _ _ Hinv Hst2) as (vd2 & Hinv2 & Hp2 & Hl2 & Hs2).
      destruct (IHl _ _ Hinv2 Hf) as (vd3 & Hinv3 & Hp3 & Hs3 & Hl3).
      exists vd3. split_and!; [done|by etrans|by etrans|].
      intros l' [-> |?]%elem_of_cons; [set_solver | by apply Hl3]. }
  destruct (IH _ _ Hinv1 Hf) as (vd' & Hinv' & Hp' & Hs' & Ht').
  exists vd'. split_and!; [done|by etrans|by etrans|].
  intros t' l [-> |?]%elem_of_cons Hl; [set_solver | by eapply Ht'].
Qed.

Lemma merge_submesh_inv acc sm acc' vd :
  inv acc.1.1 vd → merge_submesh all_vertices loop_normals acc sm = Ok acc' →
  ∃ vd', inv acc'.1.1 vd'.
Proof.
destruct acc as [[st off] blocks], sm as [submesh m]. simpl. intros Hinv Hf.
apply bind_Ok in Hf as (fs & _ & Hf). apply bind_Ok in Hf as (st1 & Hst1 & Hf).
apply bind_Ok in Hf as (va & _ & Hf). injection Hf as <-. simpl.
destruct (merge_triangles_inv _ _ _ _ Hinv Hst1) as (vd' & ? & _). eauto.
Qed.

(** What [merge_vertices] returns satisfies the invariant. *)
Lemma merge_vertices_inv submeshes materials vertex_data lvi faces :
  merge_vertices uninit submeshes all_vertices materials loop_normals
  = Ok (vertex_data, lvi, faces) →
  ∃ st, inv st vertex_data ∧ lvi = m_loop_vertex_indices st.
Proof.
unfold merge_vertices. intros Hm.
apply bind_Ok in Hm as ([[st off] blocks] & Hfold & Hm).
apply bind_Ok in Hm as (vd & Hvd & Hm). apply bind_Ok in Hm as (fa & _ & Hm).
injection Hm as <- <- <-. exists st. split; [|done].
assert (∃ vd', inv st vd') as (vd' & Hinv).
{ eapply (foldM_inv (λ acc, ∃ vd', inv acc.1.1 vd')) in Hfold; [done| |].
  - intros b x b' (vd0 & Hb) _ Hx. by eapply merge_submesh_inv.
  - exists []. apply merge_inv_init. }
assert (vd = vd') as ->; [|done].
apply mapM_Ok_inv in Hvd. pose proof (inv_vd _ _ _ _ _ Hinv) as Hvd'.
clear -Hvd Hvd'. revert vd' Hvd'.
induction Hvd as [|i v idxs vs Hi _ IH]; intros vd' Hvd'.
- by apply Forall2_nil_inv_l in Hvd'.
- apply Forall2_cons_inv_l in Hvd' as (v' & vs' & Hi' & Hvs' & ->).
  apply py_get_Ok in Hi. rewrite Hi in Hi'. injection Hi' as <-. f_equal. by apply IH.
Qed.

(** C2: whatever the input of [merge_vertices], for every raw key
    (position, bone_weights, bone_indices) the resulting [vertex_data] has at
    most two rows with that key. *)
Theorem merge_vertices_at_most_two_variants
    (submeshes : list Submesh) (submesh_material_indices : list nat)
    (vertex_data : list Vertex) (lvi : list nat) (faces : FaceArray)
    (key : list f32 * list f32 * list Z) :
  merge_vertices uninit submeshes all_vertices submesh_material_indices loop_normals
  = Ok (vertex_data, lvi, faces) →
  (length (filter (λ v, tobytes v = key) vertex_data) ≤ 2)%nat.
Proof.
intros Hm. destruct (merge_vertices_inv _ _ _ _ _ Hm) as (st & Hinv & _).
rewrite (inv_occurrences _ _ _ _ _ Hinv).
destruct (vertex_indices_normals st !! key), (inv_vertex_indices st !! key); simpl; lia.
Qed.
End merge_lemmas.

(** ** The reducer on concrete meshes *)

Lemma merge_vertices_at_most_two_variants_witness :
  (length (filter (λ v, tobytes v = tobytes Examples.vA) [Examples.vA; Examples.vA]) ≤ 2)%nat.
Proof.
apply (merge_vertices_at_most_two_variants (F32 := ExactQ) Examples.zeroed
         [Examples.vA; Examples.vA; Examples.vA]
         [Examples.up; [0; - (1); 0]%Q; [0; - (95 # 100); 31 # 100]%Q]
         (submeshes Examples.third_normal) [0%nat]
         _ [0; 1; 1]%nat (mkFaceArray 4 [(0, 1, 2, 0)%nat])).
vm_compute. reflexivity.
Defined.

(** C3: the tie-break of the vertex reducer. For a loop not yet assigned
    whose raw key hits the primary table: when the dot product of its normal
    with the stored normal is not below -0.9 the stored vertex index is
    reused; when it is below -0.9 the inverted table is consulted, a miss
    creating a new vertex and a hit reusing the inverted vertex index
    without any comparison of normals. On the three meshes of the claim: the
    normals (0,1,0) and (0,0.99,-0.14) give one vertex, (0,1,0) and (0,-1,0)
    give exactly two, and a third loop with normal (0,-0.95,0.31) reuses the
    inverted vertex. *)
Theorem merge_loop_tie_break :
  (∀ (F32 : Float32) (all_vertices : list Vertex) (loop_normals : list (list f32))
     (st : MergeState) (l : nat) (v : Vertex) (n en : list f32) (idx : nat),
     l ∉ assigned_loop_indices st →
     all_vertices !! l = Some v → loop_normals !! l = Some n →
     vertex_indices_normals st !! tobytes v = Some (idx, en) →
     (f32_lt_m09 (f32_dot n en) = false →
      merge_loop all_vertices loop_normals st l
      = Ok (mkMergeState (vertex_indices_normals st) (inv_vertex_indices st)
              (reduced_vertex_indices st) (vertex_count st)
              (<[l := idx]> (m_loop_vertex_indices st))
              ({[l]} ∪ assigned_loop_indices st)))
     ∧ (f32_lt_m09 (f32_dot n en) = true →
        inv_vertex_indices st !! tobytes v = None →
        merge_loop all_vertices loop_normals st l
        = Ok (mkMergeState (vertex_indices_normals st)
                (<[tobytes v := vertex_count st]> (inv_vertex_indices st))
                (reduced_vertex_indices st ++ [l]) (vertex_count st + 1)
                (<[l := vertex_count st]> (m_loop_vertex_indices st))
                ({[l]} ∪ assigned_loop_indices st)))
     ∧ (∀ idx', f32_lt_m09 (f32_dot n en) = true →
        inv_vertex_indices st !! tobytes v = Some idx' →
        merge_loop all_vertices loop_normals st l
        = Ok (mkMergeState (vertex_indices_normals st) (inv_vertex_indices st)
                (reduced_vertex_indices st) (vertex_count st)
                (<[l := idx']> (m_loop_vertex_indices st))
                ({[l]} ∪ assigned_loop_indices st))))
  ∧ (@f32_lt_m09 ExactQ (@f32_dot ExactQ [0; 99 # 100; - (14 # 100)]%Q Examples.up) = false
     ∧ ∃ mesh : @MergedMesh ExactQ, from_flver Examples.zeroed Examples.close_normals None None = Ok mesh
         ∧ length (vertex_data mesh) = 2%nat
         ∧ loop_vertex_indices mesh = [0; 0; 1]%nat)
  ∧ (@f32_lt_m09 ExactQ (@f32_dot ExactQ [0; - (1); 0]%Q Examples.up) = true
     ∧ ∃ mesh : @MergedMesh ExactQ, from_flver Examples.zeroed Examples.opposite_normals None None = Ok mesh
         ∧ length (filter (λ v, tobytes v = tobytes Examples.vA) (vertex_data mesh)) = 2%nat
         ∧ loop_vertex_indices mesh = [0; 1; 2]%nat)
  ∧ (@f32_lt_m09 ExactQ (@f32_dot ExactQ [0; - (95 # 100); 31 # 100]%Q Examples.up) = true
     ∧ ∃ mesh : @MergedMesh ExactQ, from_flver Examples.zeroed Examples.third_normal None None = Ok mesh
         ∧ length (vertex_data mesh) = 2%nat
         ∧ loop_vertex_indices mesh = [0; 1; 1]%nat).
Proof.
split_and!.
- intros F32 all_vertices loop_normals st l v n en idx Hl Hv Hn Hprim.
  unfold merge_loop. rewrite decide_False by done.
  unfold py_get. rewrite Hv, Hn. simpl. rewrite Hprim.
  split_and!.
  + by intros ->.
  + intros -> Hmiss. by rewrite Hmiss.
  + intros idx' -> Hhit. by rewrite Hhit.
- reflexivity.
- assert ((λ m : @MergedMesh ExactQ, (length (vertex_data m), loop_vertex_indices m))
            <$> from_flver Examples.zeroed Examples.close_normals None None
          = Ok (2%nat, [0; 0; 1]%nat)) as Hm by (vm_compute; reflexivity).
  destruct (from_flver Examples.zeroed Examples.close_normals None None) as [mesh|e];
    [|discriminate Hm].
  injection Hm as H1 H2. exists mesh. split_and!; [reflexivity | exact H1 | exact H2].
- reflexivity.
- assert ((λ m : @MergedMesh ExactQ,
             (length (filter (λ v, tobytes v = tobytes Examples.vA) (vertex_data m)),
              loop_vertex_indices m))
            <$> from_flver Examples.zeroed Examples.opposite_normals None None
          = Ok (2%nat, [0; 1; 2]%nat)) as Hm by (vm_compute; reflexivity).
  destruct (from_flver Examples.zeroed Examples.opposite_normals None None) as [mesh|e];
    [|discriminate Hm].
  injection Hm as H1 H2. exists mesh. split_and!; [reflexivity | exact H1 | exact H2].
- reflexivity.
- assert ((λ m : @MergedMesh ExactQ, (length (vertex_data m), loop_vertex_indices m))
            <$> from_flver Examples.zeroed Examples.third_normal None None
          = Ok (2%nat, [0; 1; 1]%nat)) as Hm by (vm_compute; reflexivity).
  destruct (from_flver Examples.zeroed Examples.third_normal None None) as [mesh|e];
    [|discriminate Hm].
  injection Hm as H1 H2. exists mesh. split_and!; [reflexivity | exact H1 | exact H2].
Qed.

Lemma merge_loop_tie_break_witness :
  ∃ st, @merge_loop ExactQ
          [Examples.vA; Examples.vA]
          [Examples.up; [0; 99 # 100; - (14 # 100)]%Q]
          (@mkMergeState ExactQ {[ tobytes Examples.vA := (0%nat, Examples.up) ]} ∅
                        [0%nat] 1 [0; 7]%nat {[ 0%nat ]}) 1
        = Ok st ∧ m_loop_vertex_indices st = [0; 0]%nat ∧ vertex_count st = 1%nat.
Proof.
eexists. split.
- refine (proj1 (proj1 merge_loop_tie_break ExactQ
           [Examples.vA; Examples.vA]
           [Examples.up; [0; 99 # 100; - (14 # 100)]%Q]
           (@mkMergeState ExactQ {[ tobytes Examples.vA := (0%nat, Examples.up) ]} ∅
                         [0%nat] 1 [0; 7]%nat {[ 0%nat ]})
           1%nat Examples.vA [0; 99 # 100; - (14 # 100)]%Q
           Examples.up 0%nat _ _ _ _) _).
  + apply (bool_decide_unpack _). vm_compute. exact I.
  + reflexivity.
  + reflexivity.
  + vm_compute. reflexivity.
  + reflexivity.
- split; reflexivity.
Defined.

(** C6 fails on the code: the first face set of [unreferenced_vertex] does
    not reference the fourth vertex, so its entry of [loop_vertex_indices]
    keeps what [np.empty] left there, here 7, while [vertex_data] has three
    rows. *)
Theorem from_flver_unreferenced_loop_index :
  ∃ mesh : @MergedMesh ExactQ, from_flver Examples.sevens Examples.unreferenced_vertex None None = Ok mesh
    ∧ length (vertex_data mesh) = 3%nat
    ∧ loop_vertex_indices mesh = [0; 1; 2; 7]%nat
    ∧ ¬ Forall (λ i, (i < length (vertex_data mesh))%nat) (loop_vertex_indices mesh).
Proof.
assert ((λ m : @MergedMesh ExactQ, (length (vertex_data m), loop_vertex_indices m))
          <$> from_flver Examples.sevens Examples.unreferenced_vertex None None
        = Ok (3%nat, [0; 1; 2; 7]%nat)) as Hm by (vm_compute; reflexivity).
destruct (from_flver Examples.sevens Examples.unreferenced_vertex None None) as [mesh|e];
  [|discriminate Hm].
injection Hm as H1 H2. exists mesh. split_and!; [reflexivity | exact H1 | exact H2 |].
rewrite H1, H2. intros H. rewrite !Forall_cons in H. lia.
Qed.

(** ** The final vertex reduction of [split_mesh] *)

Global Instance key_le_total a : Total (key_le a).
Proof. intros i j. unfold key_le. lia. Qed.








Section unique_lemmas.
Context {A : Type} `{EqDecision A}.
Context (le : A → A → Prop) `{!∀ x y, Decision (le x y)}.
Implicit Types l ar : list A.









End unique_lemmas.

(** ** Validation of the split definitions *)

Lemma mapM_Raise {A B} (f : A → result B) (l : list A) (x : A) (e : error) :
  x ∈ l → f x = Raise e → ∃ y e', y ∈ l ∧ f y = Raise e' ∧ mapM f l = Raise e'.
Proof.
induction l as [|z l IH]; [by intros ?%elem_of_nil|].
intros Hx Hfx.
change (mapM f (z :: l)) with (y ← f z; k ← mapM f l; mret (y :: k)).
destruct (f z) as [b|e0] eqn:Hz.
- apply elem_of_cons in Hx as [-> |Hx]; [congruence|].
  destruct (IH Hx Hfx) as (y & e' & Hy & Hfy & Hm).
  exists y, e'. split_and!; [by right | done |]. simpl. by rewrite Hm.
- exists z, e0. split_and!; [left | done | done].
Qed.

Lemma elem_of_enumerate {A} (l : list A) (x : A) :
  x ∈ l → ∃ i, (i, x) ∈ enumerate l.
Proof.
intros (i & Hi)%list_elem_of_lookup_1. exists i.
apply list_elem_of_lookup. exists i. unfold enumerate.
apply lookup_zip_with_Some. exists i, x. split_and!; [done| |done].
apply lookup_seq. split; [done|]. by eapply lookup_lt_Some.
Qed.

(** The only exceptions of the validation. *)
Lemma get_validated_uv_layer_names_Raise self global index e :
  get_validated_uv_layer_names self global index = Raise e →
  e = TypeError ∨ e = ValueError.
Proof.
unfold get_validated_uv_layer_names.
destruct (def_uv_layer_names self) as [names|]; simpl; [|intros [= <-]; by left].
repeat case_match; intros [= <-]; by right.
Qed.

(** C9: a definition whose [uv_layer_names] is [None] makes
    [get_validated_uv_layer_names] raise [TypeError] ([len(None)]); an empty
    list with a layout of at least one UV makes it raise [ValueError]; a
    successful validation returns the definition's own list, never
    synthesized names; and [split_mesh] raises, from the validation and
    whatever the mesh holds, as soon as one definition omits
    [uv_layer_names]. *)
Theorem split_mesh_needs_uv_layer_names :
  (∀ self global index,
     def_uv_layer_names self = None →
     get_validated_uv_layer_names self global index = Raise TypeError)
  ∧ (∀ self global index,
       def_uv_layer_names self = Some [] → (0 < get_uv_count (def_layout self))%nat →
       get_validated_uv_layer_names self global index = Raise ValueError)
  ∧ (∀ self global index names,
       get_validated_uv_layer_names self global index = Ok names →
       def_uv_layer_names self = Some names)
  ∧ (∀ (F32 : Float32) (le : Row string → Row string → Prop)
       (le_dec : ∀ x y, Decision (le x y)) (self : MergedMesh)
       (split_submesh_defs : list SplitSubmeshDef) (use_submesh_bone_indices : bool)
       (max_bones_per_submesh : Z) (unused_bone_indices_are_minus_one : bool)
       (submesh_def : SplitSubmeshDef),
       submesh_def ∈ split_submesh_defs → def_uv_layer_names submesh_def = None →
       split_mesh le self split_submesh_defs use_submesh_bone_indices
                  max_bones_per_submesh unused_bone_indices_are_minus_one = Raise TypeError
       ∨ split_mesh le self split_submesh_defs use_submesh_bone_indices
                    max_bones_per_submesh unused_bone_indices_are_minus_one = Raise ValueError).
Proof.
split_and!.
- intros self global index Hnone. unfold get_validated_uv_layer_names. by rewrite Hnone.
- intros self global index Hnil Hcount. unfold get_validated_uv_layer_names.
  rewrite Hnil. simpl. rewrite decide_True by lia. done.
- intros self global index names. unfold get_validated_uv_layer_names.
  destruct (def_uv_layer_names self) as [[|n ns]|]; simpl; [| |discriminate].
  + case_decide as Hlen; [discriminate|]. case_match; [discriminate|].
    intros [= <-]. f_equal.
    assert (get_uv_count (def_layout self) = 0%nat) as -> by lia. done.
  + case_decide; [discriminate|]. case_match; [discriminate|]. by intros [= <-].
- intros F32 le le_dec self defs use max unused d Hd Hnone.
  unfold split_mesh. destruct (use && bool_decide (max < 3)); [by right|].
  destruct (elem_of_enumerate _ _ Hd) as (i & Hi).
  destruct (mapM_Raise
              (λ '(i, submesh_def),
                 get_validated_uv_layer_names submesh_def (dom (loop_uvs self)) i)
              (enumerate defs) (i, d) TypeError Hi) as ([j d'] & e' & _ & He' & Hm).
  { unfold get_validated_uv_layer_names. by rewrite Hnone. }
  rewrite Hm. simpl.
  apply get_validated_uv_layer_names_Raise in He' as [-> | ->]; [by left | by right].
Qed.


Lemma split_mesh_needs_uv_layer_names_witness :
  get_validated_uv_layer_names Examples.def_without_names ∅ 0 = Raise TypeError.
Proof.
exact (proj1 split_mesh_needs_uv_layer_names Examples.def_without_names ∅ 0%nat eq_refl).
Defined.
